(** * parquet-golden-files: the generator of the golden Parquet files

    A shallow embedding of [main.cpp] and the properties of its value
    generation, its specification table, its writer configuration and its
    file-writing loop.

    The program is a driver over three libraries.  What the C++ standard
    fixes is modelled concretely (the [std::mt19937] engine, the semantics
    of [std::filesystem::create_directory] and of opening a file for
    writing); what is implementation defined (the algorithms of the
    [std::uniform_*_distribution]s, the bytes the Parquet writer emits) is
    an interface with the documented contract. *)

From Stdlib Require Import ZArith Lia List Ascii String.
From Stdlib Require Import Floats.SpecFloat.
From stdpp Require Import base decidable option list strings gmap.

Local Open Scope string_scope.
Local Open Scope Z_scope.
Local Open Scope list_scope.

(* ===================================================================== *)
(** * The engine: [std::mt19937] *)
(* ===================================================================== *)

(** [std::mt19937] is
    [mersenne_twister_engine<uint_fast32_t, 32, 624, 397, 31, 0x9908b0df,
    11, 0xffffffff, 7, 0x9d2c5680, 15, 0xefc60000, 18, 1812433253>].
    The state is the window of the last [n] words of the sequence; one
    transition appends the next word and drops the oldest one. *)
Module Mt19937.

Definition w : Z := 32.
Definition n : nat := 624.
Definition m : nat := 397.
Definition r : Z := 31.
Definition a : Z := 0x9908b0df.
Definition u : Z := 11.
Definition d : Z := 0xffffffff.
Definition s : Z := 7.
Definition b : Z := 0x9d2c5680.
Definition t : Z := 15.
Definition c : Z := 0xefc60000.
Definition l : Z := 18.
Definition f : Z := 1812433253.

Definition word_mask : Z := Z.ones w.
Definition lower_mask : Z := Z.ones r.
Definition upper_mask : Z := Z.lxor word_mask lower_mask.

(** The engine's state: the words x(i-n) .. x(i-1), oldest first. *)
Definition state : Type := list Z.

Definition word (x : Z) : Prop := 0 <= x < 2 ^ w.

(** The invariant of a seeded engine. *)
Definition wf (st : state) : Prop :=
  length st = n /\ Forall word st.

(** Seeding: x(-n) = seed mod 2^w and
    x(k-n) = (f * (x(k-1-n) xor (x(k-1-n) >> (w-2))) + k) mod 2^w. *)
Fixpoint seed_from (k : nat) (i : Z) (prev : Z) : list Z :=
  match k with
  | O => []
  | S k' =>
      let x := Z.land (f * Z.lxor prev (Z.shiftr prev (w - 2)) + i) word_mask in
      x :: seed_from k' (i + 1) x
  end.

Definition seed (value : Z) : state :=
  let x0 := Z.land value word_mask in
  x0 :: seed_from (n - 1) 1 x0.

(** The transition: the next word of the sequence. *)
Definition twist (st : state) : Z :=
  let y := Z.lor (Z.land (nth 0 st 0) upper_mask)
                 (Z.land (nth 1 st 0) lower_mask) in
  Z.lxor (Z.lxor (nth m st 0) (Z.shiftr y 1))
         (if Z.testbit y 0 then a else 0).

(** The tempering of the generated word. *)
Definition temper (x : Z) : Z :=
  let z1 := Z.lxor x (Z.land (Z.shiftr x u) d) in
  let z2 := Z.lxor z1 (Z.land (Z.shiftl z1 s) b) in
  let z3 := Z.lxor z2 (Z.land (Z.shiftl z2 t) c) in
  Z.lxor z3 (Z.shiftr z3 l).

(** [rng()]: one transition, then the tempered word. *)
Definition next (st : state) : Z * state :=
  let x := twist st in
  (temper x, tl st ++ [x]).

(** [k] calls of the engine, results dropped. *)
Fixpoint discard (k : nat) (st : state) : state :=
  match k with
  | O => st
  | S k' => discard k' (snd (next st))
  end.

Definition default_seed : Z := 5489.

End Mt19937.

(* ===================================================================== *)
(** * Computations on the global engine [rng] *)
(* ===================================================================== *)

(** A computation that reads and advances the global [rng] (line 13). *)
Definition Rand (A : Type) : Type := Mt19937.state -> A * Mt19937.state.

Definition rand_ret {A} (x : A) : Rand A := fun st => (x, st).

Definition rand_bind {A B} (c : Rand A) (k : A -> Rand B) : Rand B :=
  fun st => let (x, st') := c st in k x st'.

Declare Scope rand_scope.
Delimit Scope rand_scope with rand.
Notation "'draw' x ':=' c 'in' k" := (rand_bind c (fun x => k))
  (at level 10, x name, c at level 100, k at level 200, only parsing)
  : rand_scope.

(** [rng()]. *)
Definition rng_call : Rand Z := Mt19937.next.

(* ===================================================================== *)
(** * Machine integers and floats *)
(* ===================================================================== *)

(** Conversion to [int64_t]: the value modulo 2^64 in [-2^63, 2^63). *)
Definition to_int64 (x : Z) : Z := (x + 2 ^ 63) mod 2 ^ 64 - 2 ^ 63.

(** [x << k] on [int64_t]. *)
Definition shl_int64 (x k : Z) : Z := to_int64 (Z.shiftl x k).

(** Conversion to [uint8_t]. *)
Definition to_uint8 (x : Z) : Z := x mod 256.

(** Conversion of an integer to [char]. *)
Definition to_char (x : Z) : ascii := ascii_of_N (Z.to_N (x mod 256)).

(** [float] is IEEE 754 binary32: 24 bits of precision, [emax] 128. *)
Definition float : Type := spec_float.
Definition float_valid (x : float) : bool := valid_binary 24 128 x.
Definition float_leb (x y : float) : bool := SFleb x y.
Definition float_ltb (x y : float) : bool := SFltb x y.

(** The literals [0.f] and [100.f] (100 = 13107200 * 2^-17). *)
Definition float_0 : float := S754_zero false.
Definition float_100 : float := S754_finite false 13107200 (-17).

(* ===================================================================== *)
(** * The standard distributions and the Parquet writer *)
(* ===================================================================== *)

(** [std::uniform_int_distribution<T>(a, b)(rng)] and
    [std::uniform_real_distribution<float>(a, b)(rng)].  Their algorithms
    are implementation defined; the program relies on their contract. *)
Class Distributions : Type := {
  uniform_int_distribution : Z -> Z -> Rand Z;
  uniform_real_distribution : float -> float -> Rand float;
}.

(** The contract of the distributions: a result of the integer
    distribution lies in [a, b], a result of the real one is a float in
    [a, b), and both only draw from the engine. *)
Class DistributionsOk (D : Distributions) : Prop := {
  uniform_int_range a b st :
    a <= b -> a <= fst (uniform_int_distribution a b st) <= b;
  uniform_int_draws a b st :
    exists k, snd (uniform_int_distribution a b st) = Mt19937.discard k st;
  uniform_real_range a b st :
    float_valid a = true -> float_valid b = true -> float_ltb a b = true ->
    let x := fst (uniform_real_distribution a b st) in
    float_valid x = true /\ float_leb a x = true /\ float_ltb x b = true;
  uniform_real_draws a b st :
    exists k, snd (uniform_real_distribution a b st) = Mt19937.discard k st;
}.

(** [parquet::Encoding::type]. *)
Inductive Encoding : Type :=
  | PLAIN
  | PLAIN_DICTIONARY
  | RLE
  | BIT_PACKED
  | DELTA_BINARY_PACKED
  | DELTA_LENGTH_BYTE_ARRAY
  | DELTA_BYTE_ARRAY
  | RLE_DICTIONARY
  | BYTE_STREAM_SPLIT.

Global Instance Encoding_eq_dec : EqDecision Encoding.
Proof. solve_decision. Defined.

(** The [arrow::DataType]s the program names:
    [arrow::utf8()], [arrow::float32()], [arrow::int32()], [arrow::int64()],
    [arrow::binary()]. *)
Inductive DataType : Type := utf8 | float32 | int32 | int64 | binary.

Global Instance DataType_eq_dec : EqDecision DataType.
Proof. solve_decision. Defined.

(** A finished [arrow::Array], by the builder that produced it. *)
Inductive Array : Type :=
  | Int32Array (values : list Z)
  | FloatArray (values : list float)
  | Int64Array (values : list Z)
  | StringArray (values : list string)
  | BinaryArray (values : list (list Z)).

Definition array_type (arr : Array) : DataType :=
  match arr with
  | Int32Array _ => int32
  | FloatArray _ => float32
  | Int64Array _ => int64
  | StringArray _ => utf8
  | BinaryArray _ => binary
  end.

Definition array_length (arr : Array) : nat :=
  match arr with
  | Int32Array v => length v
  | FloatArray v => length v
  | Int64Array v => length v
  | StringArray v => length v
  | BinaryArray v => length v
  end.

Record Field : Type := field { field_name : string; field_type : DataType }.

Record Table : Type := Table_Make { table_schema : list Field; table_columns : list Array }.

(** What [parquet::WriterProperties::Builder] records of the calls the
    program makes: the default dictionary flag and the encodings requested
    per column path. *)
Record WriterProperties : Type := {
  dictionary_enabled : bool;
  encodings : gmap string Encoding;
}.

(** [parquet::WriterProperties::Builder()]: dictionary encoding is on by
    default and no column has an explicit encoding. *)
Definition Builder : WriterProperties :=
  {| dictionary_enabled := true; encodings := ∅ |}.

Definition enable_dictionary (b : WriterProperties) : WriterProperties :=
  {| dictionary_enabled := true; encodings := encodings b |}.

Definition disable_dictionary (b : WriterProperties) : WriterProperties :=
  {| dictionary_enabled := false; encodings := encodings b |}.

(** [Builder::encoding(path, e)]; the name [encoding] is the field of
    [ColumnSpec]. *)
Definition set_encoding (path : string) (e : Encoding) (b : WriterProperties)
  : WriterProperties :=
  {| dictionary_enabled := dictionary_enabled b;
     encodings := <[path := e]> (encodings b) |}.

Definition build (b : WriterProperties) : WriterProperties := b.

(** The outcome of [parquet::arrow::WriteTable]: the bytes it put on the
    stream, and whether it returned OK. *)
Inductive WriteResult : Type :=
  | Written (bytes : list Z)
  | WriteFailed (partial : list Z).

(** [parquet::arrow::WriteTable(table, pool, stream, chunk_size, props)],
    a black box. *)
Class ParquetWriter : Type := {
  WriteTable : Table -> Z -> WriterProperties -> WriteResult;
}.

(* ===================================================================== *)
(** * The filesystem, the output stream and exceptions *)
(* ===================================================================== *)

(** Paths are relative to the working directory, which is the path [""]. *)
Record Filesystem : Type := {
  directories : gset string;
  files : gmap string (list Z);
}.

Fixpoint has_separator (p : string) : bool :=
  match p with
  | EmptyString => false
  | String ch rest => if Ascii.eqb ch "/" then true else has_separator rest
  end.

(** [path::parent_path()]: what precedes the last separator. *)
Fixpoint parent_path (p : string) : string :=
  match p with
  | EmptyString => EmptyString
  | String ch rest =>
      if has_separator rest then String ch (parent_path rest) else EmptyString
  end.

(** The working directory exists; any other directory is one of
    [directories]. *)
Definition is_directory (fs : Filesystem) (p : string) : bool :=
  bool_decide (p = "" \/ p ∈ directories fs).

Definition is_regular_file (fs : Filesystem) (p : string) : bool :=
  bool_decide (is_Some (files fs !! p)).

(** The exceptions the program can raise; none is caught, so each one ends
    the process. *)
Inductive exn : Type :=
  | filesystem_error
  | ParquetException
  | out_of_range.

Inductive result (A : Type) : Type :=
  | Returns (x : A)
  | Throws (e : exn).
Arguments Returns {A} x.
Arguments Throws {A} e.

(** The process state: the global engine, the filesystem and what was put
    on [std::cout]. *)
Record World : Type := {
  rng : Mt19937.state;
  fsys : Filesystem;
  cout : string;
}.

(** A statement: it runs in a world and returns or throws, leaving a
    world behind in both cases. *)
Definition Prog (A : Type) : Type := World -> result A * World.

Definition ret {A} (x : A) : Prog A := fun wd => (Returns x, wd).

Definition throw {A} (e : exn) : Prog A := fun wd => (Throws e, wd).

Definition bind {A B} (c : Prog A) (k : A -> Prog B) : Prog B :=
  fun wd =>
    match c wd with
    | (Returns x, wd') => k x wd'
    | (Throws e, wd') => (Throws e, wd')
    end.

Declare Scope prog_scope.
Delimit Scope prog_scope with prog.
Notation "'call' x ':=' c 'in' k" := (bind c (fun x => k))
  (at level 10, x name, c at level 100, k at level 200, only parsing)
  : prog_scope.
Notation "'exec' c 'in' k" := (bind c (fun _ => k))
  (at level 10, c at level 100, k at level 200, only parsing) : prog_scope.

(** A computation on [rng] as a statement. *)
Definition with_rng {A} (c : Rand A) : Prog A :=
  fun wd =>
    let (x, st) := c (rng wd) in
    (Returns x, {| rng := st; fsys := fsys wd; cout := cout wd |}).

Definition get_fs : Prog Filesystem := fun wd => (Returns (fsys wd), wd).

Definition put_fs (fs : Filesystem) : Prog unit :=
  fun wd => (Returns tt, {| rng := rng wd; fsys := fs; cout := cout wd |}).

(** [std::cout << s]. *)
Definition cout_put (s : string) : Prog unit :=
  fun wd =>
    (Returns tt, {| rng := rng wd; fsys := fsys wd; cout := cout wd +:+ s |}).

(** [std::filesystem::create_directory(p)], as if by POSIX [mkdir]: an
    existing directory is no error and gives [false]; any other failure
    (a file of that name, a missing parent) is a [filesystem_error]. *)
Definition create_directory (p : string) : Prog bool :=
  (call fs := get_fs in
   if is_directory fs p then ret false
   else if is_regular_file fs p then throw filesystem_error
   else if negb (is_directory fs (parent_path p)) then throw filesystem_error
   else
     exec put_fs {| directories := {[ p ]} ∪ directories fs;
                    files := files fs |} in
     ret true)%prog.

(** [arrow::io::FileOutputStream::Open(path)] under
    [PARQUET_ASSIGN_OR_THROW]: creates or truncates the file; fails on a
    directory of that name or a missing parent directory.  The stream is
    the path it writes to. *)
Definition FileOutputStream_Open (path : string) : Prog string :=
  (call fs := get_fs in
   if is_directory fs path then throw ParquetException
   else if negb (is_directory fs (parent_path path)) then throw ParquetException
   else
     exec put_fs {| directories := directories fs;
                    files := <[path := []]> (files fs) |} in
     ret path)%prog.

(** The bytes a writer put on the stream [outfile]. *)
Definition stream_write (outfile : string) (bytes : list Z) : Prog unit :=
  (call fs := get_fs in
   put_fs {| directories := directories fs;
             files := <[outfile := default [] (files fs !! outfile) ++ bytes]>
                        (files fs) |})%prog.

Definition newline : string := String "010" EmptyString.

(* ===================================================================== *)
(** * The program *)
(* ===================================================================== *)

(** [struct ColumnSpec] (lines 26-31). *)
Record ColumnSpec : Type := {
  encoding_name : string;
  encoding : Encoding;
  type_name : string;
  arrow_type : DataType;
}.

Definition char_code (ch : ascii) : Z := Z.of_N (N_of_ascii ch).

(** [std::string(count, ch)]. *)
Fixpoint string_fill (count : nat) (ch : ascii) : string :=
  match count with
  | O => EmptyString
  | S count' => String ch (string_fill count' ch)
  end.

Section Program.

Context {D : Distributions} {W : ParquetWriter}.

(** The loop of [generate_array] (lines 18-20): [k] iterations left,
    [builder] holds the values appended so far. *)
Fixpoint generate_array_loop {A} (func : Rand A) (k : nat) (builder : list A)
  : Rand (list A) :=
  match k with
  | O => rand_ret builder
  | S k' =>
      (draw v := func in
       generate_array_loop func k' (builder ++ [v]))%rand
  end.

(** [generate_array<Builder>(func, num_rows)] (lines 15-24). *)
Definition generate_array {A} (func : Rand A) (num_rows : Z) : Rand (list A) :=
  generate_array_loop func (Z.to_nat num_rows) [].

(** The value function of the int32 column (line 68). *)
Definition int32_func : Rand Z := uniform_int_distribution 0 10000.

(** The value function of the float column (line 70). *)
Definition float_func : Rand float :=
  uniform_real_distribution float_0 float_100.

(** The value function of the int64 column (line 72). *)
Definition int64_func : Rand Z :=
  (draw r := rng_call in
   rand_ret (shl_int64 (to_int64 r) 8))%rand.

(** The value function of the string column (lines 74-78). *)
Definition string_func : Rand string :=
  (draw len := uniform_int_distribution 5 10 in
   draw r := rng_call in
   rand_ret (string_fill (Z.to_nat len) (to_char (char_code "a" + r mod 26))))%rand.

(** The loop of line 83: [k] iterations left, at index [i]. *)
Fixpoint fill_bytes (k : nat) (i : nat) (bytes : list Z) : Rand (list Z) :=
  match k with
  | O => rand_ret bytes
  | S k' =>
      (draw r := rng_call in
       fill_bytes k' (S i) (<[i := to_uint8 (r mod 256)]> bytes))%rand
  end.

(** The value function of the binary column (lines 80-85). *)
Definition binary_func : Rand (list Z) :=
  (draw len := uniform_int_distribution 3 15 in
   let bytes := replicate (Z.to_nat len) 0 in
   draw bytes := fill_bytes (Z.to_nat len) 0 bytes in
   rand_ret bytes)%rand.

(** The generation of [base_data] (lines 66-85). *)
Definition generate_base_data (num_rows : Z) : Rand (gmap string Array) :=
  (let base_data : gmap string Array := ∅ in
   draw a := generate_array int32_func num_rows in
   let base_data := <["int32" := Int32Array a]> base_data in
   draw a := generate_array float_func num_rows in
   let base_data := <["float" := FloatArray a]> base_data in
   draw a := generate_array int64_func num_rows in
   let base_data := <["int64" := Int64Array a]> base_data in
   draw a := generate_array string_func num_rows in
   let base_data := <["string" := StringArray a]> base_data in
   draw a := generate_array binary_func num_rows in
   let base_data := <["binary" := BinaryArray a]> base_data in
   rand_ret base_data)%rand.

(** The choice of the writer properties (lines 43-51). *)
Definition configure (e : Encoding) (builder : WriterProperties)
  : WriterProperties :=
  if bool_decide (e = PLAIN_DICTIONARY \/ e = RLE_DICTIONARY) then
    enable_dictionary builder
  else if bool_decide (e = DELTA_BINARY_PACKED \/ e = DELTA_LENGTH_BYTE_ARRAY) then
    set_encoding "data" e (disable_dictionary builder)
  else
    set_encoding "data" e builder.

Definition directory_of (spec : ColumnSpec) : string :=
  "data/" +:+ encoding_name spec.

Definition filename_of (spec : ColumnSpec) : string :=
  "data/" +:+ encoding_name spec +:+ "/" +:+ type_name spec +:+ ".parquet".

(** [PARQUET_THROW_NOT_OK(parquet::arrow::WriteTable(...))]: what the
    writer emitted stays in the file whether it succeeded or not. *)
Definition WriteTable_or_throw (table : Table) (outfile : string)
    (chunk_size : Z) (props : WriterProperties) : Prog unit :=
  match WriteTable table chunk_size props with
  | Written bytes => stream_write outfile bytes
  | WriteFailed partial =>
      (exec stream_write outfile partial in throw ParquetException)%prog
  end.

(** [write_parquet] (lines 33-60). *)
Definition write_parquet (spec : ColumnSpec) (array : Array) : Prog unit :=
  (let fld := field "data" (arrow_type spec) in
   let schema := [fld] in
   let table := Table_Make schema [array] in
   exec create_directory (directory_of spec) in
   let filename := filename_of spec in
   let builder := Builder in
   let builder := configure (encoding spec) builder in
   let props := build builder in
   call outfile := FileOutputStream_Open filename in
   exec WriteTable_or_throw table outfile 1024 props in
   cout_put ("Wrote " +:+ filename +:+ newline))%prog.

(** The specification table (lines 88-121). *)
Definition specs : list ColumnSpec := [
  {| encoding_name := "PLAIN"; encoding := PLAIN; type_name := "string"; arrow_type := utf8 |};
  {| encoding_name := "PLAIN"; encoding := PLAIN; type_name := "float"; arrow_type := float32 |};
  {| encoding_name := "PLAIN"; encoding := PLAIN; type_name := "int32"; arrow_type := int32 |};
  {| encoding_name := "PLAIN"; encoding := PLAIN; type_name := "binary"; arrow_type := binary |};

  {| encoding_name := "PLAIN_DICTIONARY"; encoding := PLAIN_DICTIONARY; type_name := "string"; arrow_type := utf8 |};
  {| encoding_name := "PLAIN_DICTIONARY"; encoding := PLAIN_DICTIONARY; type_name := "float"; arrow_type := float32 |};
  {| encoding_name := "PLAIN_DICTIONARY"; encoding := PLAIN_DICTIONARY; type_name := "int32"; arrow_type := int32 |};
  {| encoding_name := "PLAIN_DICTIONARY"; encoding := PLAIN_DICTIONARY; type_name := "int64"; arrow_type := int64 |};
  {| encoding_name := "PLAIN_DICTIONARY"; encoding := PLAIN_DICTIONARY; type_name := "binary"; arrow_type := binary |};

  {| encoding_name := "RLE_DICTIONARY"; encoding := RLE_DICTIONARY; type_name := "string"; arrow_type := utf8 |};
  {| encoding_name := "RLE_DICTIONARY"; encoding := RLE_DICTIONARY; type_name := "float"; arrow_type := float32 |};
  {| encoding_name := "RLE_DICTIONARY"; encoding := RLE_DICTIONARY; type_name := "int32"; arrow_type := int32 |};
  {| encoding_name := "RLE_DICTIONARY"; encoding := RLE_DICTIONARY; type_name := "int64"; arrow_type := int64 |};
  {| encoding_name := "RLE_DICTIONARY"; encoding := RLE_DICTIONARY; type_name := "binary"; arrow_type := binary |};

  {| encoding_name := "RLE"; encoding := RLE; type_name := "string"; arrow_type := utf8 |};
  {| encoding_name := "RLE"; encoding := RLE; type_name := "float"; arrow_type := float32 |};
  {| encoding_name := "RLE"; encoding := RLE; type_name := "int32"; arrow_type := int32 |};
  {| encoding_name := "RLE"; encoding := RLE; type_name := "int64"; arrow_type := int64 |};
  {| encoding_name := "RLE"; encoding := RLE; type_name := "binary"; arrow_type := binary |};

  {| encoding_name := "DELTA_BINARY_PACKED"; encoding := DELTA_BINARY_PACKED; type_name := "int32"; arrow_type := int32 |};
  {| encoding_name := "DELTA_BINARY_PACKED"; encoding := DELTA_BINARY_PACKED; type_name := "int64"; arrow_type := int64 |};

  {| encoding_name := "DELTA_LENGTH_BYTE_ARRAY"; encoding := DELTA_LENGTH_BYTE_ARRAY; type_name := "binary"; arrow_type := binary |}
].

(** [std::map::at]. *)
Definition map_at (base_data : gmap string Array) (key : string) : Prog Array :=
  match base_data !! key with
  | Some array => ret array
  | None => throw out_of_range
  end.

(** A range-based [for] whose body may throw. *)
Fixpoint for_each {A} (range : list A) (body : A -> Prog unit) : Prog unit :=
  match range with
  | [] => ret tt
  | x :: range' => (exec body x in for_each range' body)%prog
  end.

(** The loop of lines 124-126. *)
Definition write_all (table : list ColumnSpec) (base_data : gmap string Array)
  : Prog unit :=
  for_each table (fun spec =>
    (call array := map_at base_data (type_name spec) in
     write_parquet spec array)%prog).

(** [main] (lines 62-129). *)
Definition main : Prog Z :=
  (let num_rows := 1000 in
   call base_data := with_rng (generate_base_data num_rows) in
   exec write_all specs base_data in
   ret 0)%prog.

(** The world [main] starts in: the engine seeded with 42 (line 13),
    nothing written to [std::cout] yet. *)
Definition initial_world (fs : Filesystem) : World :=
  {| rng := Mt19937.seed 42; fsys := fs; cout := "" |}.

End Program.

(* ===================================================================== *)
(** * Reference definitions the program is compared with *)
(* ===================================================================== *)

(** [k] successive results of [func], first one first. *)
Fixpoint draws {A} (func : Rand A) (k : nat) (st : Mt19937.state)
  : list A * Mt19937.state :=
  match k with
  | O => ([], st)
  | S k' =>
      let (v, st1) := func st in
      let (vs, st2) := draws func k' st1 in
      (v :: vs, st2)
  end.

(** The five columns, generated one after the other from one engine in
    the order int32, float, int64, string, binary. *)
Record Columns : Type := {
  int32_column : list Z;
  float_column : list float;
  int64_column : list Z;
  string_column : list string;
  binary_column : list (list Z);
}.

Definition columns_in_order {D : Distributions} (k : nat) (st0 : Mt19937.state)
  : Columns * Mt19937.state :=
  let (c1, st1) := draws int32_func k st0 in
  let (c2, st2) := draws float_func k st1 in
  let (c3, st3) := draws int64_func k st2 in
  let (c4, st4) := draws string_func k st3 in
  let (c5, st5) := draws binary_func k st4 in
  ({| int32_column := c1; float_column := c2; int64_column := c3;
      string_column := c4; binary_column := c5 |}, st5).

(** The columns of a run of [main]: 1000 rows each, from the engine
    seeded with 42. *)
Definition generated_columns {D : Distributions} : Columns :=
  fst (columns_in_order (Z.to_nat 1000) (Mt19937.seed 42)).

(** The engine after the generation of the columns. *)
Definition rng_after_generation {D : Distributions} : Mt19937.state :=
  snd (columns_in_order (Z.to_nat 1000) (Mt19937.seed 42)).

(** The value of [base_data] in a run of [main]. *)
Definition base_data {D : Distributions} : gmap string Array :=
  fst (generate_base_data 1000 (Mt19937.seed 42)).

(** The lookup keyed by type name that holds the columns. *)
Definition columns_by_name (cols : Columns) : gmap string Array :=
  list_to_map [
    ("int32", Int32Array (int32_column cols));
    ("float", FloatArray (float_column cols));
    ("int64", Int64Array (int64_column cols));
    ("string", StringArray (string_column cols));
    ("binary", BinaryArray (binary_column cols))
  ].

(** The column of a logical type. *)
Definition column_of_type (cols : Columns) (ty : DataType) : Array :=
  match ty with
  | int32 => Int32Array (int32_column cols)
  | float32 => FloatArray (float_column cols)
  | int64 => Int64Array (int64_column cols)
  | utf8 => StringArray (string_column cols)
  | binary => BinaryArray (binary_column cols)
  end.

(** The characters of a string. *)
Fixpoint chars (s : string) : list ascii :=
  match s with
  | EmptyString => []
  | String ch rest => ch :: chars rest
  end.

(** A state of the program's engine: the engine seeded with 42 (line 13)
    after some number of calls. *)
Definition reachable (st : Mt19937.state) : Prop :=
  exists k, st = Mt19937.discard k (Mt19937.seed 42).

(** A raw output of the program's engine: what [rng()] returns in one of
    its states. *)
Definition raw_output (r : Z) : Prop :=
  exists st, reachable st /\ r = fst (Mt19937.next st).

(** A value of the int32 column. *)
Definition int32_value (v : Z) : Prop := 0 <= v <= 10000.

(** A value of the float column: a binary32 number in [0.0, 100.0). *)
Definition float_value (x : float) : Prop :=
  float_valid x = true /\ float_leb float_0 x = true /\ float_ltb x float_100 = true.

(** A value of the binary column. *)
Definition binary_value (v : list Z) : Prop :=
  3 <= Z.of_nat (length v) <= 15 /\ Forall (fun byte => 0 <= byte <= 255) v.

(** A value of the int64 column: a raw output [r], converted to 64 bits
    and shifted left by 8 bits, neither step losing a bit. *)
Definition int64_value (v : Z) : Prop :=
  exists r,
    raw_output r /\ 0 <= r < 2 ^ 32 /\
    v = shl_int64 (to_int64 r) 8 /\
    to_int64 r = r /\
    - 2 ^ 63 <= Z.shiftl r 8 < 2 ^ 63 /\
    v = Z.shiftl r 8 /\
    v = r * 256 /\
    0 <= v <= (2 ^ 32 - 1) * 256 /\
    v mod 256 = 0.

(** A value of the string column: [len] copies of the character
    ['a' + r mod 26], for one result [len] of the distribution on [5, 10]
    and the raw output [r] that follows it. *)
Definition string_value {D : Distributions} (s : string) : Prop :=
  exists st len r ch,
    Mt19937.wf st /\
    len = fst (uniform_int_distribution 5 10 st) /\
    r = fst (Mt19937.next (snd (uniform_int_distribution 5 10 st))) /\
    5 <= len <= 10 /\
    ch = to_char (char_code "a" + r mod 26) /\
    char_code ch = char_code "a" + r mod 26 /\
    char_code "a" <= char_code ch <= char_code "z" /\
    s = string_fill (Z.to_nat len) ch /\
    Z.of_nat (String.length s) = len /\
    Forall (fun c => c = ch) (chars s).

(** The world after the generation of the columns: only the engine has
    moved. *)
Definition world_after_generation {D : Distributions} (fs : Filesystem) : World :=
  {| rng := rng_after_generation; fsys := fs; cout := "" |}.

(** The single-column table, the writer properties and the output line of
    a specification, as [write_parquet] forms them. *)
Definition table_for (spec : ColumnSpec) (array : Array) : Table :=
  Table_Make [field "data" (arrow_type spec)] [array].

Definition props_for (spec : ColumnSpec) : WriterProperties :=
  build (configure (encoding spec) Builder).

Definition output_line (spec : ColumnSpec) : string :=
  "Wrote " +:+ filename_of spec.

(** What [write_parquet] does once the output directory is there. *)
Definition open_write_report {W : ParquetWriter} (spec : ColumnSpec) (array : Array)
  : Prog unit :=
  (call outfile := FileOutputStream_Open (filename_of spec) in
   exec WriteTable_or_throw (table_for spec array) outfile 1024 (props_for spec) in
   cout_put (output_line spec +:+ newline))%prog.

(** A world with another filesystem. *)
Definition with_fs (wd : World) (fs : Filesystem) : World :=
  {| rng := rng wd; fsys := fs; cout := cout wd |}.

(** A filesystem with a directory added. *)
Definition with_directory (fs : Filesystem) (path : string) : Filesystem :=
  {| directories := {[ path ]} ∪ directories fs; files := files fs |}.

(** A file can be opened for writing: no directory has its name and its
    parent directory exists. *)
Definition can_open (fs : Filesystem) (path : string) : bool :=
  negb (is_directory fs path) && is_directory fs (parent_path path).

(** A filesystem with a file of given content added or replaced. *)
Definition with_file (fs : Filesystem) (path : string) (content : list Z)
  : Filesystem :=
  {| directories := directories fs; files := <[path := content]> (files fs) |}.

(** The logical types an encoding is paired with in the table, in order. *)
Definition types_paired_with (e : Encoding) : list DataType :=
  map arrow_type (filter (fun spec => encoding spec = e) specs).

(** The three ways the writer is configured. *)
Inductive Policy : Type :=
  | DictionaryOn
  | DictionaryOffAndEncoding
  | EncodingOnly.

(** The policy of the specification: the two dictionary identifiers, the
    two delta encodings, every other encoding. *)
Definition policy_of (e : Encoding) : Policy :=
  match e with
  | PLAIN_DICTIONARY | RLE_DICTIONARY => DictionaryOn
  | DELTA_BINARY_PACKED | DELTA_LENGTH_BYTE_ARRAY => DictionaryOffAndEncoding
  | _ => EncodingOnly
  end.

(** The specification table as the specification words it: per encoding,
    the logical types it is paired with, in order. *)
Definition pairing_table : list (Encoding * list DataType) := [
  (PLAIN, [utf8; float32; int32; binary]);
  (PLAIN_DICTIONARY, [utf8; float32; int32; int64; binary]);
  (RLE_DICTIONARY, [utf8; float32; int32; int64; binary]);
  (RLE, [utf8; float32; int32; int64; binary]);
  (DELTA_BINARY_PACKED, [int32; int64]);
  (DELTA_LENGTH_BYTE_ARRAY, [binary])
].

(** The names the program gives to encodings and types. *)
Definition name_of_encoding (e : Encoding) : string :=
  match e with
  | PLAIN => "PLAIN"
  | PLAIN_DICTIONARY => "PLAIN_DICTIONARY"
  | RLE => "RLE"
  | BIT_PACKED => "BIT_PACKED"
  | DELTA_BINARY_PACKED => "DELTA_BINARY_PACKED"
  | DELTA_LENGTH_BYTE_ARRAY => "DELTA_LENGTH_BYTE_ARRAY"
  | DELTA_BYTE_ARRAY => "DELTA_BYTE_ARRAY"
  | RLE_DICTIONARY => "RLE_DICTIONARY"
  | BYTE_STREAM_SPLIT => "BYTE_STREAM_SPLIT"
  end.

Definition name_of_type (ty : DataType) : string :=
  match ty with
  | utf8 => "string"
  | float32 => "float"
  | int32 => "int32"
  | int64 => "int64"
  | binary => "binary"
  end.

Definition spec_of (e : Encoding) (ty : DataType) : ColumnSpec :=
  {| encoding_name := name_of_encoding e; encoding := e;
     type_name := name_of_type ty; arrow_type := ty |}.

(** The lines the program is expected to print, in table order. *)
Definition expected_lines : list string := [
  "Wrote data/PLAIN/string.parquet";
  "Wrote data/PLAIN/float.parquet";
  "Wrote data/PLAIN/int32.parquet";
  "Wrote data/PLAIN/binary.parquet";
  "Wrote data/PLAIN_DICTIONARY/string.parquet";
  "Wrote data/PLAIN_DICTIONARY/float.parquet";
  "Wrote data/PLAIN_DICTIONARY/int32.parquet";
  "Wrote data/PLAIN_DICTIONARY/int64.parquet";
  "Wrote data/PLAIN_DICTIONARY/binary.parquet";
  "Wrote data/RLE_DICTIONARY/string.parquet";
  "Wrote data/RLE_DICTIONARY/float.parquet";
  "Wrote data/RLE_DICTIONARY/int32.parquet";
  "Wrote data/RLE_DICTIONARY/int64.parquet";
  "Wrote data/RLE_DICTIONARY/binary.parquet";
  "Wrote data/RLE/string.parquet";
  "Wrote data/RLE/float.parquet";
  "Wrote data/RLE/int32.parquet";
  "Wrote data/RLE/int64.parquet";
  "Wrote data/RLE/binary.parquet";
  "Wrote data/DELTA_BINARY_PACKED/int32.parquet";
  "Wrote data/DELTA_BINARY_PACKED/int64.parquet";
  "Wrote data/DELTA_LENGTH_BYTE_ARRAY/binary.parquet"
].

(** Each line followed by a newline. *)
Fixpoint unlines (lines : list string) : string :=
  match lines with
  | [] => EmptyString
  | line :: rest => line +:+ newline +:+ unlines rest
  end.

(* ===================================================================== *)
(** * Instances to run the program on *)
(* ===================================================================== *)

Module Sample.

(** A distribution by reduction of one draw modulo the size of the range. *)
Definition uniform_int (a b : Z) : Rand Z :=
  fun st =>
    let (r, st') := Mt19937.next st in
    (a + r mod (b - a + 1), st').

(** A distribution by scaling of one draw: r / 2^32 * (b - a) + a in
    binary32 arithmetic, kept within [a, b). *)
Definition uniform_real (a b : float) : Rand float :=
  fun st =>
    let (r, st') := Mt19937.next st in
    let canonical := binary_normalize 24 128 r (-32) false in
    let x := SFadd 24 128 (SFmul 24 128 canonical (SFsub 24 128 b a)) a in
    (if float_valid x && float_leb a x && float_ltb x b then x else a, st').

Definition distributions : Distributions :=
  {| uniform_int_distribution := uniform_int;
     uniform_real_distribution := uniform_real |}.

Definition magic : list Z := [80; 65; 82; 49].

(** A writer that accepts every table: the magic number, the number of
    rows and the magic number again. *)
Definition lenient_writer : ParquetWriter :=
  {| WriteTable := fun table _ _ =>
       Written (magic
                ++ map (fun arr => Z.of_nat (array_length arr)) (table_columns table)
                ++ magic) |}.

(** A writer that rejects RLE as the encoding of a data column, after
    the magic number is on the stream. *)
Definition strict_writer : ParquetWriter :=
  {| WriteTable := fun table chunk_size props =>
       match encodings props !! "data" with
       | Some RLE => WriteFailed magic
       | _ => @WriteTable lenient_writer table chunk_size props
       end |}.

(** A working directory that holds nothing. *)
Definition empty_fs : Filesystem :=
  {| directories := ∅; files := ∅ |}.

(** A working directory that holds the directory [data]. *)
Definition data_fs : Filesystem :=
  {| directories := {[ "data" ]}; files := ∅ |}.

(** A working directory of an earlier run: the directories are there,
    and so is a stale file. *)
Definition rerun_fs : Filesystem :=
  {| directories := {[ "data"; "data/PLAIN"; "data/RLE" ]};
     files := {[ "data/PLAIN/string.parquet" := [1; 2; 3] ]} |}.

(** A working directory in which the first output file cannot be
    opened: a directory has its name. *)
Definition blocked_fs : Filesystem :=
  {| directories := {[ "data"; "data/PLAIN"; "data/PLAIN/string.parquet" ]};
     files := ∅ |}.

End Sample.

(* ===================================================================== *)
(** * Conditions on the filesystem *)
(* ===================================================================== *)

(** [create_directory] returns: the directory is there, or it can be made
    (no regular file has its name and its parent directory exists). *)
Definition can_create (fs : Filesystem) (path : string) : bool :=
  is_directory fs path
  || (negb (is_regular_file fs path) && is_directory fs (parent_path path)).

(** The filesystem once [create_directory] has returned. *)
Definition ensure_directory (fs : Filesystem) (path : string) : Filesystem :=
  if is_directory fs path then fs else with_directory fs path.

(** The output directories of a table, as a set. *)
Definition output_directories (table : list ColumnSpec) : gset string :=
  list_to_set (map directory_of table).

(* ===================================================================== *)
(** * The engine keeps its words within 32 bits *)
(* ===================================================================== *)

Section EngineFacts.

Import Mt19937.

Lemma word_shiftr x : word x <-> Z.shiftr x 32 = 0.
Proof.
  unfold word, w. rewrite Z.shiftr_div_pow2 by lia.
  change (2 ^ 32) with 4294967296. split.
  - intros H. apply Z.div_small. exact H.
  - intros H. apply Z.div_small_iff in H; [|discriminate].
    destruct H as [H|H]; [exact H|lia].
Qed.

(** Closed instances of [word]. *)
Ltac word_const :=
  unfold word; vm_compute; split; [discriminate | reflexivity].

Lemma word_0 : word 0.
Proof. word_const. Qed.

Lemma word_mask_word : word word_mask.
Proof. word_const. Qed.

Lemma word_lxor x y : word x -> word y -> word (Z.lxor x y).
Proof.
  rewrite !word_shiftr. intros Hx Hy.
  rewrite Z.shiftr_lxor, Hx, Hy. reflexivity.
Qed.

Lemma word_lor x y : word x -> word y -> word (Z.lor x y).
Proof.
  rewrite !word_shiftr. intros Hx Hy.
  rewrite Z.shiftr_lor, Hx, Hy. reflexivity.
Qed.

Lemma word_land_r x y : word y -> word (Z.land x y).
Proof.
  rewrite !word_shiftr. intros Hy.
  rewrite Z.shiftr_land, Hy. apply Z.land_0_r.
Qed.

Lemma word_land_l x y : word x -> word (Z.land x y).
Proof. intros Hx. rewrite Z.land_comm. apply word_land_r. exact Hx. Qed.

Lemma word_shiftr_by x k : 0 <= k -> word x -> word (Z.shiftr x k).
Proof.
  rewrite !word_shiftr. intros Hk Hx.
  rewrite Z.shiftr_shiftr by lia. rewrite Z.add_comm.
  rewrite <- Z.shiftr_shiftr by lia. rewrite Hx. apply Z.shiftr_0_l.
Qed.

Lemma word_nth (st : state) i : Forall word st -> word (nth i st 0).
Proof.
  intros H. revert i. induction H as [|x st Hx _ IH]; intros [|i]; simpl;
    auto using word_0.
Qed.

Lemma twist_word st : Forall word st -> word (twist st).
Proof.
  intros H. unfold twist.
  assert (Hy : word (Z.lor (Z.land (nth 0 st 0) upper_mask)
                           (Z.land (nth 1 st 0) lower_mask))).
  { apply word_lor; apply word_land_l; apply word_nth; exact H. }
  apply word_lxor.
  - apply word_lxor; [apply word_nth; exact H|].
    apply word_shiftr_by; [lia|exact Hy].
  - destruct (Z.testbit _ 0); [|apply word_0].
    word_const.
Qed.

Lemma temper_word x : word x -> word (temper x).
Proof.
  intros Hx. unfold temper.
  assert (Hd : word d) by word_const.
  assert (Hb : word b) by word_const.
  assert (Hc : word c) by word_const.
  set (z1 := Z.lxor x _).
  assert (H1 : word z1) by (apply word_lxor; auto using word_land_r).
  set (z2 := Z.lxor z1 _).
  assert (H2 : word z2) by (apply word_lxor; auto using word_land_r).
  set (z3 := Z.lxor z2 _).
  assert (H3 : word z3) by (apply word_lxor; auto using word_land_r).
  apply word_lxor; [exact H3|].
  apply word_shiftr_by; [unfold l; lia|exact H3].
Qed.

Lemma seed_from_length k i prev : length (seed_from k i prev) = k.
Proof.
  revert i prev. induction k as [|k IH]; intros i prev; simpl; [reflexivity|].
  rewrite IH. reflexivity.
Qed.

Lemma seed_from_word k i prev : Forall word (seed_from k i prev).
Proof.
  revert i prev. induction k as [|k IH]; intros i prev; simpl; constructor.
  - apply word_land_r, word_mask_word.
  - apply IH.
Qed.

(** A seeded engine satisfies the invariant. *)
Lemma seed_wf value : wf (seed value).
Proof.
  unfold wf, seed. split.
  - cbn [length]. rewrite seed_from_length. reflexivity.
  - constructor.
    + apply word_land_r, word_mask_word.
    + apply seed_from_word.
Qed.

(** A call of the engine keeps the invariant. *)
Lemma next_wf st : wf st -> wf (snd (next st)).
Proof.
  intros [Hlen Hall]. unfold next. simpl. split.
  - rewrite length_app. simpl. destruct st as [|x st]; [discriminate|].
    simpl in *. lia.
  - apply Forall_app. split.
    + destruct st as [|x st]; simpl; [constructor|].
      inversion Hall; assumption.
    + constructor; [|constructor]. apply twist_word. exact Hall.
Qed.

(** A call of the engine returns a 32-bit word. *)
Lemma next_word st : wf st -> 0 <= fst (next st) < 2 ^ 32.
Proof.
  intros [_ Hall]. unfold next. simpl.
  apply temper_word, twist_word, Hall.
Qed.

Lemma discard_wf k st : wf st -> wf (discard k st).
Proof.
  revert st. induction k as [|k IH]; intros st H; simpl; [exact H|].
  apply IH, next_wf, H.
Qed.

End EngineFacts.

(** The check value of the C++ standard: the 10000th output of a
    default-seeded [std::mt19937] is 4123659995. *)
Example mt19937_check_value :
  fst (Mt19937.next
         (Mt19937.discard (Z.to_nat 9999) (Mt19937.seed Mt19937.default_seed)))
  = 4123659995.
Proof. vm_compute. reflexivity. Qed.

(** The first output of the program's engine. *)
Example mt19937_seed_42 : fst (Mt19937.next (Mt19937.seed 42)) = 1608637542.
Proof. vm_compute. reflexivity. Qed.

(* ===================================================================== *)
(** * Generation of the columns *)
(* ===================================================================== *)

Section DrawsFacts.

Context {A : Type} (func : Rand A).

Lemma draws_length k st : length (fst (draws func k st)) = k.
Proof.
  revert st. induction k as [|k IH]; intros st; simpl; [reflexivity|].
  destruct (func st) as [v st1]. specialize (IH st1).
  destruct (draws func k st1) as [vs st2]. simpl in *. congruence.
Qed.

(** An invariant of the engine that [func] keeps, and a property of the
    values it returns under the invariant, hold along [draws]. *)
Lemma draws_invariant (I : Mt19937.state -> Prop) (P : A -> Prop) :
  (forall st, I st -> P (fst (func st)) /\ I (snd (func st))) ->
  forall k st, I st ->
    Forall P (fst (draws func k st)) /\ I (snd (draws func k st)).
Proof.
  intros Hfunc k. induction k as [|k IH]; intros st Hst; simpl.
  - split; [constructor|exact Hst].
  - destruct (Hfunc st Hst) as [Hv Hst1].
    destruct (func st) as [v st1]. simpl in Hv, Hst1.
    destruct (IH st1 Hst1) as [Hvs Hst2].
    destruct (draws func k st1) as [vs st2]. simpl in *.
    split; [constructor; assumption|exact Hst2].
Qed.

(** The loop of [generate_array] appends the successive results of
    [func] to the builder. *)
Lemma generate_array_loop_draws k builder st :
  generate_array_loop func k builder st
  = (builder ++ fst (draws func k st), snd (draws func k st)).
Proof.
  revert builder st. induction k as [|k IH]; intros builder st; simpl.
  - unfold rand_ret. rewrite app_nil_r. reflexivity.
  - unfold rand_bind. destruct (func st) as [v st1].
    rewrite IH. destruct (draws func k st1) as [vs st2]. simpl.
    rewrite <- app_assoc. reflexivity.
Qed.

Lemma generate_array_draws num_rows st :
  generate_array func num_rows st = draws func (Z.to_nat num_rows) st.
Proof.
  unfold generate_array. rewrite generate_array_loop_draws. simpl.
  destruct (draws func _ st). reflexivity.
Qed.

End DrawsFacts.

(** The results of a function that transforms one raw draw. *)
Lemma draws_map {A B} (g : Rand A) (f : A -> B) k st :
  draws (fun st => let (r, st') := g st in (f r, st')) k st
  = (map f (fst (draws g k st)), snd (draws g k st)).
Proof.
  revert st. induction k as [|k IH]; intros st; simpl; [reflexivity|].
  destruct (g st) as [r st1]. rewrite IH.
  destruct (draws g k st1) as [rs st2]. reflexivity.
Qed.

Section MachineFacts.

Lemma to_int64_small x : - 2 ^ 63 <= x < 2 ^ 63 -> to_int64 x = x.
Proof.
  intros H. unfold to_int64. rewrite Z.mod_small; lia.
Qed.

Lemma shl_int64_word r :
  0 <= r < 2 ^ 32 ->
  to_int64 r = r /\
  - 2 ^ 63 <= Z.shiftl r 8 < 2 ^ 63 /\
  shl_int64 (to_int64 r) 8 = r * 256.
Proof.
  intros H.
  assert (E : Z.shiftl r 8 = r * 256).
  { rewrite Z.shiftl_mul_pow2 by lia. reflexivity. }
  assert (H1 : to_int64 r = r) by (apply to_int64_small; lia).
  repeat split; try (rewrite E; lia).
  - exact H1.
  - unfold shl_int64. rewrite H1, E. apply to_int64_small. lia.
Qed.

Lemma char_code_to_char x : char_code (to_char x) = x mod 256.
Proof.
  unfold char_code, to_char.
  assert (H : 0 <= x mod 256 < 256) by (apply Z.mod_pos_bound; lia).
  rewrite N_ascii_embedding by lia. lia.
Qed.

Lemma string_fill_length count ch : String.length (string_fill count ch) = count.
Proof. induction count as [|k IH]; simpl; congruence. Qed.

Lemma string_fill_chars count ch :
  Forall (fun c => c = ch) (chars (string_fill count ch)).
Proof. induction count as [|k IH]; simpl; constructor; auto. Qed.

End MachineFacts.

Section ValueFacts.

Context {D : Distributions} {OK : DistributionsOk D}.

Lemma uniform_int_wf a b st :
  Mt19937.wf st -> Mt19937.wf (snd (uniform_int_distribution a b st)).
Proof.
  intros H. destruct (uniform_int_draws a b st) as [k ->].
  apply discard_wf, H.
Qed.

Lemma uniform_real_wf a b st :
  Mt19937.wf st -> Mt19937.wf (snd (uniform_real_distribution a b st)).
Proof.
  intros H. destruct (uniform_real_draws a b st) as [k ->].
  apply discard_wf, H.
Qed.

Lemma int32_func_spec st :
  Mt19937.wf st ->
  int32_value (fst (int32_func st)) /\ Mt19937.wf (snd (int32_func st)).
Proof.
  intros H. unfold int32_func, int32_value. split.
  - apply uniform_int_range. lia.
  - apply uniform_int_wf, H.
Qed.

Lemma float_func_spec st :
  Mt19937.wf st ->
  float_value (fst (float_func st)) /\ Mt19937.wf (snd (float_func st)).
Proof.
  intros H. unfold float_func, float_value. split.
  - apply uniform_real_range; reflexivity.
  - apply uniform_real_wf, H.
Qed.

Lemma int64_func_eq st :
  int64_func st
  = let (r, st') := Mt19937.next st in (shl_int64 (to_int64 r) 8, st').
Proof. reflexivity. Qed.

Lemma discard_next k st :
  Mt19937.discard k (snd (Mt19937.next st)) = snd (Mt19937.next (Mt19937.discard k st)).
Proof.
  revert st. induction k as [|k IH]; intros st; [reflexivity|].
  cbn [Mt19937.discard]. apply IH.
Qed.

Lemma discard_discard j k st :
  Mt19937.discard k (Mt19937.discard j st) = Mt19937.discard (j + k) st.
Proof.
  revert st. induction j as [|j IH]; intros st; [reflexivity|].
  cbn [Mt19937.discard Nat.add]. apply IH.
Qed.

Lemma reachable_seed : reachable (Mt19937.seed 42).
Proof. exists 0%nat. reflexivity. Qed.

Lemma reachable_wf st : reachable st -> Mt19937.wf st.
Proof. intros [k ->]. apply discard_wf, seed_wf. Qed.

Lemma reachable_discard k st : reachable st -> reachable (Mt19937.discard k st).
Proof. intros [j ->]. exists (j + k)%nat. apply discard_discard. Qed.

Lemma reachable_next st : reachable st -> reachable (snd (Mt19937.next st)).
Proof. intros H. apply (reachable_discard 1 st H). Qed.

Lemma int64_func_spec st :
  reachable st ->
  int64_value (fst (int64_func st)) /\ reachable (snd (int64_func st)).
Proof.
  intros Hreach. pose proof (reachable_wf st Hreach) as H.
  rewrite int64_func_eq.
  pose proof (next_word st H) as Hr. pose proof (reachable_next st Hreach) as Hst.
  destruct (Mt19937.next st) as [r st'] eqn:E. simpl in *.
  split; [|exact Hst].
  destruct (shl_int64_word r Hr) as (H1 & H2 & H3).
  assert (E8 : Z.shiftl r 8 = r * 256).
  { rewrite Z.shiftl_mul_pow2 by lia. reflexivity. }
  exists r. split.
  { exists st. split; [exact Hreach|]. rewrite E. reflexivity. }
  repeat split; try lia.
  - rewrite H3. apply Z.mod_mul. lia.
Qed.

Lemma string_func_spec st :
  Mt19937.wf st ->
  string_value (fst (string_func st)) /\ Mt19937.wf (snd (string_func st)).
Proof.
  intros H. unfold string_func, rand_bind, rng_call, rand_ret.
  pose proof (uniform_int_range 5 10 st ltac:(lia)) as Hlen.
  pose proof (uniform_int_wf 5 10 st H) as Hst1.
  destruct (uniform_int_distribution 5 10 st) as [len st1] eqn:E1.
  simpl in Hlen, Hst1.
  pose proof (next_word st1 Hst1) as Hr. pose proof (next_wf st1 Hst1) as Hst2.
  destruct (Mt19937.next st1) as [r st2] eqn:E2. cbn [fst snd] in Hr, Hst2 |- *.
  split; [|exact Hst2].
  assert (Hm : 0 <= r mod 26 < 26) by (apply Z.mod_pos_bound; lia).
  assert (Hc : char_code (to_char (char_code "a" + r mod 26))
               = char_code "a" + r mod 26).
  { rewrite char_code_to_char. change (char_code "a") with 97.
    apply Z.mod_small. lia. }
  exists st, len, r, (to_char (char_code "a" + r mod 26)).
  rewrite E1. cbn [fst snd]. rewrite E2. cbn [fst snd].
  split; [exact H|]. split; [reflexivity|]. split; [reflexivity|].
  split; [exact Hlen|]. split; [reflexivity|]. split; [exact Hc|].
  split.
  { rewrite Hc. change (char_code "a") with 97. change (char_code "z") with 122.
    lia. }
  split; [reflexivity|]. split.
  - rewrite string_fill_length. lia.
  - apply string_fill_chars.
Qed.

(** The loop that fills the vector keeps its length and stores bytes. *)
Lemma fill_bytes_spec k : forall i bytes st,
  Mt19937.wf st ->
  Forall (fun byte => 0 <= byte <= 255) bytes ->
  length (fst (fill_bytes k i bytes st)) = length bytes /\
  Forall (fun byte => 0 <= byte <= 255) (fst (fill_bytes k i bytes st)) /\
  Mt19937.wf (snd (fill_bytes k i bytes st)).
Proof.
  induction k as [|k IH]; intros i bytes st Hst Hb; simpl.
  - auto.
  - unfold rand_bind, rng_call.
    pose proof (next_wf st Hst) as Hst1.
    destruct (Mt19937.next st) as [r st1]. simpl in Hst1.
    assert (Hbyte : 0 <= to_uint8 (r mod 256) <= 255).
    { unfold to_uint8.
      assert (0 <= (r mod 256) mod 256 < 256) by (apply Z.mod_pos_bound; lia).
      lia. }
    destruct (IH (S i) (<[i := to_uint8 (r mod 256)]> bytes) st1 Hst1)
      as (Hl & Hf & Hw).
    { apply Forall_insert; assumption. }
    rewrite length_insert in Hl. auto.
Qed.

Lemma binary_func_spec st :
  Mt19937.wf st ->
  binary_value (fst (binary_func st)) /\ Mt19937.wf (snd (binary_func st)).
Proof.
  intros H. unfold binary_func, rand_bind, rand_ret.
  pose proof (uniform_int_range 3 15 st ltac:(lia)) as Hlen.
  pose proof (uniform_int_wf 3 15 st H) as Hst1.
  destruct (uniform_int_distribution 3 15 st) as [len st1]. simpl in Hlen, Hst1.
  destruct (fill_bytes_spec (Z.to_nat len) 0 (replicate (Z.to_nat len) 0) st1 Hst1)
    as (Hl & Hf & Hw).
  { apply Forall_replicate. lia. }
  destruct (fill_bytes _ _ _ st1) as [bytes st2]. simpl in *.
  split; [|exact Hw]. split; [|exact Hf].
  rewrite Hl, length_replicate. lia.
Qed.

(** The code builds the lookup that holds the columns generated in
    order. *)
Lemma generate_base_data_columns num_rows st :
  generate_base_data num_rows st
  = (columns_by_name (fst (columns_in_order (Z.to_nat num_rows) st)),
     snd (columns_in_order (Z.to_nat num_rows) st)).
Proof.
  unfold generate_base_data, columns_in_order, rand_bind, rand_ret.
  rewrite generate_array_draws.
  destruct (draws int32_func _ st) as [c1 st1].
  rewrite generate_array_draws.
  destruct (draws float_func _ st1) as [c2 st2].
  rewrite generate_array_draws.
  destruct (draws int64_func _ st2) as [c3 st3].
  rewrite generate_array_draws.
  destruct (draws string_func _ st3) as [c4 st4].
  rewrite generate_array_draws.
  destruct (draws binary_func _ st4) as [c5 st5].
  cbn [fst snd]. reflexivity.
Qed.

End ValueFacts.

Section ColumnFacts.

Context {D : Distributions}.

Lemma columns_in_order_length k st :
  let cols := fst (columns_in_order k st) in
  length (int32_column cols) = k /\
  length (float_column cols) = k /\
  length (int64_column cols) = k /\
  length (string_column cols) = k /\
  length (binary_column cols) = k.
Proof.
  unfold columns_in_order.
  pose proof (draws_length int32_func k st) as L1.
  destruct (draws int32_func k st) as [c1 st1].
  pose proof (draws_length float_func k st1) as L2.
  destruct (draws float_func k st1) as [c2 st2].
  pose proof (draws_length int64_func k st2) as L3.
  destruct (draws int64_func k st2) as [c3 st3].
  pose proof (draws_length string_func k st3) as L4.
  destruct (draws string_func k st3) as [c4 st4].
  pose proof (draws_length binary_func k st4) as L5.
  destruct (draws binary_func k st4) as [c5 st5].
  simpl in *. auto.
Qed.

Lemma columns_in_order_values {OK : DistributionsOk D} k st :
  Mt19937.wf st ->
  let cols := fst (columns_in_order k st) in
  Forall int32_value (int32_column cols) /\
  Forall float_value (float_column cols) /\
  Forall string_value (string_column cols) /\
  Forall binary_value (binary_column cols).
Proof.
  intros H. unfold columns_in_order.
  destruct (draws_invariant int32_func Mt19937.wf int32_value
              int32_func_spec k st H) as [P1 H1].
  destruct (draws int32_func k st) as [c1 st1].
  destruct (draws_invariant float_func Mt19937.wf float_value
              float_func_spec k st1 H1) as [P2 H2].
  destruct (draws float_func k st1) as [c2 st2].
  destruct (draws_invariant int64_func Mt19937.wf (fun _ => True)
              (fun st' H' => conj I (next_wf st' H')) k st2 H2) as [_ H3].
  destruct (draws int64_func k st2) as [c3 st3].
  destruct (draws_invariant string_func Mt19937.wf string_value
              string_func_spec k st3 H3) as [P4 H4].
  destruct (draws string_func k st3) as [c4 st4].
  destruct (draws_invariant binary_func Mt19937.wf binary_value
              binary_func_spec k st4 H4) as [P5 H5].
  destruct (draws binary_func k st4) as [c5 st5].
  simpl in *. auto.
Qed.

Lemma base_data_columns : base_data = columns_by_name generated_columns.
Proof.
  unfold base_data, generated_columns.
  rewrite generate_base_data_columns. reflexivity.
Qed.

Lemma columns_by_name_lookup cols ty :
  columns_by_name cols !! name_of_type ty = Some (column_of_type cols ty).
Proof. destruct ty; reflexivity. Qed.

End ColumnFacts.

(* ===================================================================== *)
(** * The reference distributions meet the contract *)
(* ===================================================================== *)

Lemma float_leb_refl a b : float_ltb a b = true -> float_leb a a = true.
Proof.
  unfold float_ltb, float_leb, SFltb, SFleb.
  destruct a as [sa|sa| |sa ma ea]; simpl.
  - reflexivity.
  - destruct sa; reflexivity.
  - discriminate.
  - intros _. rewrite Z.compare_refl.
    destruct sa; rewrite Pos.compare_cont_refl; reflexivity.
Qed.

Lemma sample_distributions_ok : DistributionsOk Sample.distributions.
Proof.
  split.
  - intros a b st Hab.
    change (uniform_int_distribution a b st) with (Sample.uniform_int a b st).
    unfold Sample.uniform_int.
    destruct (Mt19937.next st) as [r st']. cbn [fst].
    assert (0 <= r mod (b - a + 1) < b - a + 1) by (apply Z.mod_pos_bound; lia).
    lia.
  - intros a b st. exists 1%nat.
    change (uniform_int_distribution a b st) with (Sample.uniform_int a b st).
    unfold Sample.uniform_int. cbn [Mt19937.discard].
    destruct (Mt19937.next st) as [r st']. reflexivity.
  - intros a b st Ha Hb Hab.
    change (uniform_real_distribution a b st) with (Sample.uniform_real a b st).
    unfold Sample.uniform_real.
    destruct (Mt19937.next st) as [r st']. cbn [fst].
    set (x := SFadd _ _ _ _).
    destruct (float_valid x && float_leb a x && float_ltb x b) eqn:E.
    + apply andb_prop in E as [E E3]. apply andb_prop in E as [E1 E2]. auto.
    + split; [exact Ha|]. split; [|exact Hab].
      apply float_leb_refl with b. exact Hab.
  - intros a b st. exists 1%nat.
    change (uniform_real_distribution a b st) with (Sample.uniform_real a b st).
    unfold Sample.uniform_real. cbn [Mt19937.discard].
    destruct (Mt19937.next st) as [r st']. reflexivity.
Qed.

(* ===================================================================== *)
(** * The generated values *)
(* ===================================================================== *)

(** C4. Every value of the int32 column lies in [0, 10000], every value of
    the float column is a binary32 number in [0.0, 100.0), and every value
    of the binary column has between 3 and 15 bytes, each in [0, 255];
    each of these columns has 1000 values. *)
Theorem generated_values_in_range {D : Distributions} (OK : DistributionsOk D) :
  exists ints floats binaries,
    base_data !! "int32" = Some (Int32Array ints) /\
    length ints = Z.to_nat 1000 /\
    Forall (fun v => 0 <= v <= 10000) ints /\
    base_data !! "float" = Some (FloatArray floats) /\
    length floats = Z.to_nat 1000 /\
    Forall (fun x => float_valid x = true /\
                     float_leb float_0 x = true /\
                     float_ltb x float_100 = true) floats /\
    base_data !! "binary" = Some (BinaryArray binaries) /\
    length binaries = Z.to_nat 1000 /\
    Forall (fun v => 3 <= Z.of_nat (length v) <= 15 /\
                     Forall (fun byte => 0 <= byte <= 255) v) binaries.
Proof.
  destruct (columns_in_order_length (Z.to_nat 1000) (Mt19937.seed 42))
    as (L1 & L2 & _ & _ & L5).
  destruct (columns_in_order_values (Z.to_nat 1000) (Mt19937.seed 42)
              (seed_wf 42)) as (P1 & P2 & _ & P5).
  exists (int32_column generated_columns), (float_column generated_columns),
         (binary_column generated_columns).
  rewrite base_data_columns.
  split; [reflexivity|]. split; [exact L1|]. split; [exact P1|].
  split; [reflexivity|]. split; [exact L2|]. split; [exact P2|].
  split; [reflexivity|]. split; [exact L5|]. exact P5.
Qed.

Lemma generated_values_in_range_witness :
  DistributionsOk Sample.distributions /\
  exists ints floats binaries,
    @base_data Sample.distributions !! "int32" = Some (Int32Array ints) /\
    length ints = Z.to_nat 1000 /\
    Forall (fun v => 0 <= v <= 10000) ints /\
    @base_data Sample.distributions !! "float" = Some (FloatArray floats) /\
    length floats = Z.to_nat 1000 /\
    Forall (fun x => float_valid x = true /\
                     float_leb float_0 x = true /\
                     float_ltb x float_100 = true) floats /\
    @base_data Sample.distributions !! "binary" = Some (BinaryArray binaries) /\
    length binaries = Z.to_nat 1000 /\
    Forall (fun v => 3 <= Z.of_nat (length v) <= 15 /\
                     Forall (fun byte => 0 <= byte <= 255) v) binaries.
Proof.
  split.
  - exact sample_distributions_ok.
  - exact (generated_values_in_range sample_distributions_ok).
Defined.



(** The distributions keep the engine among its states. *)
Lemma uniform_int_reachable {D : Distributions} (OK : DistributionsOk D) a b st :
  reachable st -> reachable (snd (uniform_int_distribution a b st)).
Proof.
  intros H. destruct (uniform_int_draws a b st) as [k ->].
  apply reachable_discard, H.
Qed.

Lemma uniform_real_reachable {D : Distributions} (OK : DistributionsOk D) a b st :
  reachable st -> reachable (snd (uniform_real_distribution a b st)).
Proof.
  intros H. destruct (uniform_real_draws a b st) as [k ->].
  apply reachable_discard, H.
Qed.

(** The engine when the generation of the int64 column starts: seeded
    with 42 and advanced by the generation of the int32 and the float
    columns. *)
Lemma int64_start_reachable {D : Distributions} (OK : DistributionsOk D) k :
  reachable (snd (draws float_func k (snd (draws int32_func k (Mt19937.seed 42))))).
Proof.
  apply (draws_invariant float_func reachable (fun _ => True)).
  - intros st H. split; [exact I|]. apply (uniform_real_reachable OK), H.
  - apply (draws_invariant int32_func reachable (fun _ => True)).
    + intros st H. split; [exact I|]. apply (uniform_int_reachable OK), H.
    + apply reachable_seed.
Qed.

(** The int64 column is computed from the outputs of the engine that
    follow the generation of the int32 and the float columns. *)
Lemma int64_column_raw {D : Distributions} k st :
  int64_column (fst (columns_in_order k st))
  = map (fun r => shl_int64 (to_int64 r) 8)
        (fst (draws rng_call k
                (snd (draws float_func k (snd (draws int32_func k st)))))).
Proof.
  unfold columns_in_order.
  destruct (draws int32_func k st) as [c1 st1]. cbn [snd].
  destruct (draws float_func k st1) as [c2 st2]. cbn [snd].
  pose proof (draws_map rng_call (fun r => shl_int64 (to_int64 r) 8) k st2) as E.
  change (draws int64_func k st2
          = (map (fun r => shl_int64 (to_int64 r) 8) (fst (draws rng_call k st2)),
             snd (draws rng_call k st2))) in E.
  rewrite E.
  destruct (draws string_func k _) as [c4 st4].
  destruct (draws binary_func k st4) as [c5 st5].
  reflexivity.
Qed.

Lemma int64_column_values {D : Distributions} (OK : DistributionsOk D) k :
  Forall int64_value (int64_column (fst (columns_in_order k (Mt19937.seed 42)))).
Proof.
  pose proof (int64_start_reachable OK k) as Hreach.
  unfold columns_in_order.
  destruct (draws int32_func k (Mt19937.seed 42)) as [c1 st1]. cbn [snd] in Hreach.
  destruct (draws float_func k st1) as [c2 st2]. cbn [snd] in Hreach.
  destruct (draws_invariant int64_func reachable int64_value
              int64_func_spec k st2 Hreach) as [P3 _].
  destruct (draws int64_func k st2) as [c3 st3].
  destruct (draws string_func k st3) as [c4 st4].
  destruct (draws binary_func k st4) as [c5 st5].
  exact P3.
Qed.

(** The outputs of an array of calls of the engine in one of its states
    are 32-bit words. *)
Lemma draws_rng_call_range k st :
  Mt19937.wf st -> Forall (fun r => 0 <= r < 2 ^ 32) (fst (draws rng_call k st)).
Proof.
  intros H.
  apply (draws_invariant rng_call Mt19937.wf (fun r => 0 <= r < 2 ^ 32)); [|exact H].
  intros st' H'. split; [apply next_word, H'|apply next_wf, H'].
Qed.

(** C6. The int64 column is computed from the outputs of the program's
    engine: with the engine seeded with 42 and advanced by the generation
    of the int32 and the float columns, row [i] of the column is the
    [i]-th of the next 1000 outputs, converted to 64 bits and shifted left
    by 8 bits.  Neither the conversion nor the shift loses a bit: the row
    is the output times 256, shifting it right by 8 bits gives the output
    back, and it is non-negative, a multiple of 256 and at most
    (2^32 - 1) * 256. *)
Theorem int64_values_are_shifted_raw_outputs
    {D : Distributions} (OK : DistributionsOk D) :
  let n := Z.to_nat 1000 in
  let st2 := snd (draws float_func n (snd (draws int32_func n (Mt19937.seed 42)))) in
  let outputs := fst (draws rng_call n st2) in
  exists col,
    base_data !! "int64" = Some (Int64Array col) /\
    length col = n /\
    (exists k, st2 = Mt19937.discard k (Mt19937.seed 42)) /\
    length outputs = n /\
    col = map (fun r => shl_int64 (to_int64 r) 8) outputs /\
    col = map (fun r => r * 256) outputs /\
    map (fun v => Z.shiftr v 8) col = outputs /\
    Forall (fun r => 0 <= r < 2 ^ 32 /\
                     to_int64 r = r /\
                     - 2 ^ 63 <= Z.shiftl r 8 < 2 ^ 63 /\
                     shl_int64 (to_int64 r) 8 = Z.shiftl r 8) outputs /\
    Forall (fun v =>
      exists r,
        raw_output r /\ 0 <= r < 2 ^ 32 /\
        v = shl_int64 (to_int64 r) 8 /\
        to_int64 r = r /\
        - 2 ^ 63 <= Z.shiftl r 8 < 2 ^ 63 /\
        v = Z.shiftl r 8 /\
        v = r * 256 /\
        0 <= v <= (2 ^ 32 - 1) * 256 /\
        v mod 256 = 0) col.
Proof.
  intros n st2 outputs. subst n.
  destruct (columns_in_order_length (Z.to_nat 1000) (Mt19937.seed 42))
    as (_ & _ & L3 & _ & _).
  pose proof (int64_column_values OK (Z.to_nat 1000)) as P3.
  pose proof (int64_column_raw (Z.to_nat 1000) (Mt19937.seed 42)) as Hraw.
  fold st2 outputs in Hraw.
  pose proof (int64_start_reachable OK (Z.to_nat 1000)) as Hreach.
  fold st2 in Hreach.
  pose proof (draws_rng_call_range (Z.to_nat 1000) st2
                (reachable_wf st2 Hreach)) as Hrange.
  fold outputs in Hrange.
  fold (@generated_columns D) in L3, P3, Hraw.
  exists (int64_column generated_columns).
  rewrite base_data_columns.
  split; [reflexivity|]. split; [exact L3|]. split; [exact Hreach|].
  split; [apply draws_length|]. split; [exact Hraw|].
  assert (E1 : map (fun r => shl_int64 (to_int64 r) 8) outputs
               = map (fun r => r * 256) outputs).
  { clear Hraw. induction Hrange as [|r rs Hr _ IH]; [reflexivity|].
    cbn [map]. destruct (shl_int64_word r Hr) as (_ & _ & ->).
    f_equal. exact IH. }
  split; [rewrite Hraw; exact E1|]. split.
  { rewrite Hraw, E1. clear Hraw E1.
    induction Hrange as [|r rs Hr _ IH]; [reflexivity|].
    cbn [map]. f_equal; [|exact IH].
    rewrite Z.shiftr_div_pow2 by lia. change (2 ^ 8) with 256.
    apply Z.div_mul. lia. }
  split; [|exact P3].
  eapply Forall_impl; [exact Hrange|].
  intros r Hr. cbn beta. destruct (shl_int64_word r Hr) as (H1 & H2 & H3).
  split; [exact Hr|]. split; [exact H1|]. split; [exact H2|].
  rewrite H3. rewrite Z.shiftl_mul_pow2 by lia. reflexivity.
Qed.

Lemma int64_values_are_shifted_raw_outputs_witness :
  DistributionsOk Sample.distributions /\
  exists col,
    @base_data Sample.distributions !! "int64" = Some (Int64Array col) /\
    length col = Z.to_nat 1000 /\
    Forall int64_value col /\
    firstn 3 col = [203555810816; 95333387008; 595826392320] /\
    firstn 3 (map (fun v => Z.shiftr v 8) col) = [795139886; 372396043; 2327446845].
Proof.
  split; [exact sample_distributions_ok|].
  destruct (int64_values_are_shifted_raw_outputs sample_distributions_ok)
    as (col & Hl & Hn & _ & _ & _ & Hc & Hs & _ & Hv).
  exists col. split; [exact Hl|]. split; [exact Hn|]. split; [exact Hv|].
  split.
  - rewrite Hc. vm_compute. reflexivity.
  - rewrite Hs. vm_compute. reflexivity.
Defined.

(** The first values of the columns under the reference distributions. *)
Example generated_columns_sample :
  let cols := @generated_columns Sample.distributions in
  firstn 3 (int32_column cols) = [6695; 3989; 8589] /\
  firstn 3 (int64_column cols) = [203555810816; 95333387008; 595826392320] /\
  firstn 3 (string_column cols) = ["hhhhhh"; "xxxxxxxxxx"; "eeeeeeeee"] /\
  firstn 1 (binary_column cols)
  = [[174; 254; 238; 3; 134; 108; 162; 47; 254; 72; 71; 115; 172; 80; 80]].
Proof. vm_compute. auto. Qed.

(* ===================================================================== *)
(** * The writer configuration and the specification table *)
(* ===================================================================== *)

(** C1. The writer properties are chosen by a three-way branch on the
    encoding of the specification.  For the two dictionary identifiers the
    dictionary is enabled and the requested encodings are left as they
    were, so that the fresh builder of [write_parquet] has none for column
    "data".  For the two delta encodings the dictionary is disabled and the
    encoding is requested for column "data".  For every other encoding the
    encoding is requested for column "data" and the dictionary flag is left
    as it was.  In the table, the encodings of the third kind are PLAIN
    and RLE. *)
Theorem configure_three_way (spec : ColumnSpec) (builder : WriterProperties) :
  let e := encoding spec in
  let props := build (configure e builder) in
  match policy_of e with
  | DictionaryOn =>
      (e = PLAIN_DICTIONARY \/ e = RLE_DICTIONARY) /\
      props = enable_dictionary builder /\
      dictionary_enabled props = true /\
      encodings props = encodings builder /\
      encodings (props_for spec) !! "data" = None
  | DictionaryOffAndEncoding =>
      (e = DELTA_BINARY_PACKED \/ e = DELTA_LENGTH_BYTE_ARRAY) /\
      props = set_encoding "data" e (disable_dictionary builder) /\
      dictionary_enabled props = false /\
      encodings props !! "data" = Some e /\
      encodings (props_for spec) !! "data" = Some e
  | EncodingOnly =>
      props = set_encoding "data" e builder /\
      dictionary_enabled props = dictionary_enabled builder /\
      encodings props !! "data" = Some e /\
      encodings (props_for spec) !! "data" = Some e
  end /\
  Forall (fun spec' =>
            match policy_of (encoding spec') with
            | EncodingOnly => encoding spec' = PLAIN \/ encoding spec' = RLE
            | _ => True
            end) specs.
Proof.
  split.
  - destruct spec as [name e ty_name ty]. unfold props_for. simpl.
    destruct e; simpl; unfold configure, build; simpl;
      repeat split; auto;
      try (apply lookup_insert_eq).
  - unfold specs. repeat (apply Forall_cons_2; [simpl; auto|]). apply Forall_nil_2.
Qed.

(** C2. The table is the fixed ordered list: PLAIN with string, float,
    int32, binary; PLAIN_DICTIONARY, RLE_DICTIONARY and RLE each with
    string, float, int32, int64, binary; DELTA_BINARY_PACKED with int32 and
    int64; DELTA_LENGTH_BYTE_ARRAY with binary; each entry named after its
    encoding and its type.  No other encoding occurs, and the two delta
    encodings are paired with no other type. *)
Theorem specs_table :
  specs = flat_map (fun '(e, tys) => map (spec_of e) tys) pairing_table /\
  length specs = 22%nat /\
  types_paired_with PLAIN = [utf8; float32; int32; binary] /\
  types_paired_with PLAIN_DICTIONARY = [utf8; float32; int32; int64; binary] /\
  types_paired_with RLE_DICTIONARY = [utf8; float32; int32; int64; binary] /\
  types_paired_with RLE = [utf8; float32; int32; int64; binary] /\
  types_paired_with DELTA_BINARY_PACKED = [int32; int64] /\
  types_paired_with DELTA_LENGTH_BYTE_ARRAY = [binary] /\
  types_paired_with BIT_PACKED = [] /\
  types_paired_with DELTA_BYTE_ARRAY = [] /\
  types_paired_with BYTE_STREAM_SPLIT = [] /\
  Forall (fun spec =>
            match encoding spec with
            | DELTA_BINARY_PACKED =>
                arrow_type spec = int32 \/ arrow_type spec = int64
            | DELTA_LENGTH_BYTE_ARRAY => arrow_type spec = binary
            | _ => True
            end) specs /\
  Forall (fun spec =>
            encoding_name spec = name_of_encoding (encoding spec) /\
            type_name spec = name_of_type (arrow_type spec)) specs.
Proof.
  repeat split; try reflexivity.
  - unfold specs. repeat (apply Forall_cons_2; [simpl; auto|]). apply Forall_nil_2.
  - unfold specs. repeat (apply Forall_cons_2; [split; reflexivity|]).
    apply Forall_nil_2.
Qed.

(* ===================================================================== *)
(** * Statements: creating the directory, opening, writing, reporting *)
(* ===================================================================== *)

Lemma string_app_assoc (s1 s2 s3 : string) :
  (s1 +:+ s2) +:+ s3 = s1 +:+ (s2 +:+ s3).
Proof.
  induction s1 as [|ch s1 IH]; [reflexivity|].
  change (String ch ((s1 +:+ s2) +:+ s3) = String ch (s1 +:+ (s2 +:+ s3))).
  f_equal. exact IH.
Qed.

Section StatementFacts.

Context {W : ParquetWriter}.

(** The three outcomes of [create_directory]. *)
Lemma create_directory_cases p w :
  (is_directory (fsys w) p = true /\
   create_directory p w = (Returns false, w)) \/
  (is_directory (fsys w) p = false /\
   (is_regular_file (fsys w) p = true \/
    is_directory (fsys w) (parent_path p) = false) /\
   create_directory p w = (Throws filesystem_error, w)) \/
  (is_directory (fsys w) p = false /\
   is_regular_file (fsys w) p = false /\
   is_directory (fsys w) (parent_path p) = true /\
   create_directory p w
   = (Returns true, with_fs w (with_directory (fsys w) p))).
Proof.
  unfold create_directory, bind, get_fs, put_fs, ret, throw.
  destruct (is_directory (fsys w) p) eqn:E1; [left; auto|].
  right. destruct (is_regular_file (fsys w) p) eqn:E2; [left; auto|].
  destruct (is_directory (fsys w) (parent_path p)) eqn:E3; simpl.
  - right. auto.
  - left. auto.
Qed.

Lemma is_directory_with_directory fs p q :
  is_directory (with_directory fs p) q
  = bool_decide (q = p) || is_directory fs q.
Proof.
  unfold is_directory, with_directory. simpl.
  apply Bool.eq_iff_eq_true.
  rewrite orb_true_iff, !bool_decide_eq_true, elem_of_union, elem_of_singleton.
  tauto.
Qed.

(** [write_parquet] creates the directory, then opens, writes and
    reports. *)
Lemma write_parquet_create spec array w :
  write_parquet spec array w
  = match create_directory (directory_of spec) w with
    | (Returns _, w1) => open_write_report spec array w1
    | (Throws e, w1) => (Throws e, w1)
    end.
Proof. reflexivity. Qed.

(** The three outcomes of what follows the creation of the directory. *)
Lemma open_write_report_cases spec array w :
  let file := filename_of spec in
  (can_open (fsys w) file = false /\
   FileOutputStream_Open file w = (Throws ParquetException, w) /\
   open_write_report spec array w = (Throws ParquetException, w)) \/
  (can_open (fsys w) file = true /\
   exists partial,
     WriteTable (table_for spec array) 1024 (props_for spec) = WriteFailed partial /\
     open_write_report spec array w
     = (Throws ParquetException, with_fs w (with_file (fsys w) file partial))) \/
  (can_open (fsys w) file = true /\
   exists bytes,
     WriteTable (table_for spec array) 1024 (props_for spec) = Written bytes /\
     open_write_report spec array w
     = (Returns tt,
        {| rng := rng w;
           fsys := with_file (fsys w) file bytes;
           cout := cout w +:+ output_line spec +:+ newline |})).
Proof.
  intros file.
  unfold can_open, open_write_report, FileOutputStream_Open,
    WriteTable_or_throw, bind, get_fs, throw.
  fold file.
  destruct (is_directory (fsys w) file) eqn:E1; cbn [negb andb].
  { left. auto. }
  destruct (is_directory (fsys w) (parent_path file)) eqn:E2; cbn [negb andb].
  2: { left. auto. }
  right. unfold put_fs, ret. cbn [fsys].
  destruct (WriteTable _ _ _) as [bytes|partial] eqn:EW.
  - right. split; [reflexivity|]. exists bytes. split; [reflexivity|].
    unfold stream_write, bind, get_fs, put_fs, cout_put, with_file.
    cbn [fsys rng cout files directories].
    rewrite lookup_insert_eq, insert_insert_eq. cbn [default app].
    unfold output_line. rewrite string_app_assoc. reflexivity.
  - left. split; [reflexivity|]. exists partial. split; [reflexivity|].
    unfold stream_write, bind, get_fs, put_fs, throw, with_fs, with_file.
    cbn [fsys rng cout files directories].
    rewrite lookup_insert_eq, insert_insert_eq. reflexivity.
Qed.

End StatementFacts.

Section LoopFacts.

Context {W : ParquetWriter}.

(** What a call of [write_parquet] leaves behind: the engine is not
    touched, directories are only added, no file but the output file
    changes, and a line is printed exactly when the call returns. *)
Lemma write_parquet_summary spec array w :
  let res := write_parquet spec array w in
  rng (snd res) = rng w /\
  directories (fsys w) ⊆ directories (fsys (snd res)) /\
  (forall p, p <> filename_of spec ->
             files (fsys (snd res)) !! p = files (fsys w) !! p) /\
  match fst res with
  | Returns _ =>
      cout (snd res) = cout w +:+ output_line spec +:+ newline /\
      exists bytes,
        WriteTable (table_for spec array) 1024 (props_for spec) = Written bytes /\
        files (fsys (snd res)) !! filename_of spec = Some bytes
  | Throws e => cout (snd res) = cout w /\ e <> out_of_range
  end.
Proof.
  intros res. subst res. rewrite write_parquet_create.
  destruct (create_directory_cases (directory_of spec) w)
    as [(_ & ->)|[(_ & _ & ->)|(_ & _ & _ & ->)]].
  - destruct (open_write_report_cases spec array w)
      as [(_ & _ & ->)|[(_ & p & _ & ->)|(_ & b & Hb & ->)]];
      cbn [fst snd rng fsys cout with_fs with_file files directories].
    + repeat split; auto; try discriminate.
    + repeat split; auto; try discriminate.
      intros q Hq. apply lookup_insert_ne. congruence.
    + repeat split; auto.
      * intros q Hq. apply lookup_insert_ne. congruence.
      * exists b. split; [exact Hb|]. apply lookup_insert_eq.
  - cbn [fst snd]. repeat split; auto; try discriminate.
  - set (w1 := with_fs w (with_directory (fsys w) (directory_of spec))).
    assert (Hd : directories (fsys w) ⊆ directories (fsys w1)).
    { unfold w1, with_fs, with_directory. cbn [fsys directories].
      apply union_subseteq_r. }
    destruct (open_write_report_cases spec array w1)
      as [(_ & _ & ->)|[(_ & p & _ & ->)|(_ & b & Hb & ->)]];
      cbn [fst snd rng fsys cout with_fs with_file files directories].
    + repeat split; auto; try discriminate.
    + repeat split; auto; try discriminate.
      intros q Hq. unfold w1. cbn [fsys with_fs with_directory files].
      apply lookup_insert_ne. congruence.
    + repeat split; auto.
      * intros q Hq. unfold w1. cbn [fsys with_fs with_directory files].
        apply lookup_insert_ne. congruence.
      * exists b. split; [exact Hb|]. apply lookup_insert_eq.
Qed.

(** A loop over a concatenation runs the second part in the world the
    first part returns in, and stops where the first part throws. *)
Lemma for_each_app {A} (l1 l2 : list A) body w :
  for_each (l1 ++ l2) body w
  = match for_each l1 body w with
    | (Returns _, w1) => for_each l2 body w1
    | (Throws e, w1) => (Throws e, w1)
    end.
Proof.
  revert w. induction l1 as [|x l1 IH]; intros w; simpl; [reflexivity|].
  unfold bind. destruct (body x w) as [[[]|e] w1]; [apply IH|reflexivity].
Qed.

(** An invariant of the worlds in which the body returns, and a property
    of the exceptions it throws, hold for the loop. *)
Lemma for_each_invariant {A} (I : World -> Prop) (T : exn -> World -> Prop)
    (range : list A) body :
  (forall x w, x ∈ range -> I w ->
     match body x w with
     | (Returns _, w') => I w'
     | (Throws e, w') => T e w'
     end) ->
  forall w, I w ->
    match for_each range body w with
    | (Returns _, w') => I w'
    | (Throws e, w') => T e w'
    end.
Proof.
  induction range as [|x range IH]; intros Hbody w Hw; simpl; [exact Hw|].
  unfold bind. pose proof (Hbody x w ltac:(left) Hw) as Hx.
  destruct (body x w) as [[[]|e] w1]; [|exact Hx].
  apply IH; [|exact Hx].
  intros y w' Hy. apply Hbody. right. exact Hy.
Qed.

(** One iteration of the loop of [main]. *)
Lemma write_all_cons spec table bd w :
  write_all (spec :: table) bd w
  = match bd !! type_name spec with
    | None => (Throws out_of_range, w)
    | Some array =>
        match write_parquet spec array w with
        | (Returns _, w1) => write_all table bd w1
        | (Throws e, w1) => (Throws e, w1)
        end
    end.
Proof.
  unfold write_all. simpl. unfold bind, map_at.
  destruct (bd !! type_name spec) as [array|]; reflexivity.
Qed.

(** The loop of [main] does not touch the engine, only adds
    directories, and changes no file but the output files. *)
Lemma write_all_frame table bd : forall w,
  let res := write_all table bd w in
  rng (snd res) = rng w /\
  directories (fsys w) ⊆ directories (fsys (snd res)) /\
  (forall p, p ∉ map filename_of table ->
             files (fsys (snd res)) !! p = files (fsys w) !! p).
Proof.
  induction table as [|spec table IH]; intros w; cbn zeta.
  - simpl. auto.
  - rewrite write_all_cons.
    destruct (bd !! type_name spec) as [array|]; [|simpl; auto].
    destruct (write_parquet_summary spec array w) as (Hr & Hd & Hf & _).
    destruct (write_parquet spec array w) as [[[]|e] w1]; cbn [fst snd] in *.
    + destruct (IH w1) as (Hr' & Hd' & Hf'). cbn zeta in *.
      split; [congruence|]. split; [etrans; eassumption|].
      intros p Hp.
      change (p ∉ filename_of spec :: map filename_of table) in Hp.
      rewrite not_elem_of_cons in Hp. destruct Hp as [Hp1 Hp2].
      rewrite Hf' by exact Hp2. apply Hf. exact Hp1.
    + split; [exact Hr|]. split; [exact Hd|].
      intros p Hp.
      change (p ∉ filename_of spec :: map filename_of table) in Hp.
      rewrite not_elem_of_cons in Hp. apply Hf. tauto.
Qed.

(** When the loop of [main] returns, it has printed one line per
    specification, in order, and every output file holds what the writer
    emitted for it. *)
Lemma write_all_returns table bd : forall w w',
  NoDup (map filename_of table) ->
  write_all table bd w = (Returns tt, w') ->
  cout w' = cout w +:+ unlines (map output_line table) /\
  Forall (fun spec =>
    exists array bytes,
      bd !! type_name spec = Some array /\
      WriteTable (table_for spec array) 1024 (props_for spec) = Written bytes /\
      files (fsys w') !! filename_of spec = Some bytes) table.
Proof.
  induction table as [|spec table IH]; intros w w' Hnd Hrun.
  - simpl in Hrun. injection Hrun as <-. simpl.
    split; [|constructor].
    clear. induction (cout w) as [|ch s IHs]; [reflexivity|].
    change (String ch s = String ch (s +:+ "")). f_equal. exact IHs.
  - rewrite write_all_cons in Hrun.
    change (NoDup (filename_of spec :: map filename_of table)) in Hnd.
    apply NoDup_cons in Hnd as [Hnotin Hnd].
    destruct (bd !! type_name spec) as [array|] eqn:Hbd; [|discriminate].
    destruct (write_parquet_summary spec array w) as (_ & _ & _ & Hres).
    destruct (write_parquet spec array w) as [[[]|e] w1]; [|discriminate].
    cbn [fst snd] in Hres. destruct Hres as (Hc & bytes & Hb & Hfile).
    destruct (IH w1 w' Hnd Hrun) as (Hc' & Hall).
    split.
    + rewrite Hc', Hc.
      change (unlines (map output_line (spec :: table)))
        with (output_line spec +:+ newline +:+ unlines (map output_line table)).
      rewrite !string_app_assoc. reflexivity.
    + constructor; [|exact Hall].
      exists array, bytes. split; [exact Hbd|]. split; [exact Hb|].
      destruct (write_all_frame table bd w1) as (_ & _ & Hf).
      rewrite Hrun in Hf. cbn [snd] in Hf.
      rewrite Hf by exact Hnotin. exact Hfile.
Qed.

End LoopFacts.

(* ===================================================================== *)
(** * The run of [main] *)
(* ===================================================================== *)

(** The entries of the table are named after their encoding and type. *)
Lemma specs_names :
  Forall (fun spec =>
            encoding_name spec = name_of_encoding (encoding spec) /\
            type_name spec = name_of_type (arrow_type spec)) specs.
Proof.
  unfold specs. repeat (apply Forall_cons_2; [split; reflexivity|]).
  apply Forall_nil_2.
Qed.

Lemma dom_columns_by_name cols :
  dom (columns_by_name cols)
  = ({[ "int32"; "float"; "int64"; "string"; "binary" ]} : gset string).
Proof.
  unfold columns_by_name.
  rewrite dom_list_to_map_L. simpl. set_solver.
Qed.

Section RunFacts.

Context {D : Distributions} {W : ParquetWriter}.

(** The generation moves the engine and nothing else. *)
Lemma generation_world fs :
  with_rng (generate_base_data 1000) (initial_world fs)
  = (Returns base_data, world_after_generation fs).
Proof.
  unfold with_rng, initial_world, world_after_generation, base_data,
    rng_after_generation. cbn [rng fsys cout].
  rewrite generate_base_data_columns. reflexivity.
Qed.

(** [main] is the loop over the table, run after the generation. *)
Lemma main_after_generation fs :
  main (initial_world fs)
  = match write_all specs base_data (world_after_generation fs) with
    | (Returns _, w) => (Returns 0, w)
    | (Throws e, w) => (Throws e, w)
    end.
Proof.
  unfold main. unfold bind at 1. rewrite generation_world.
  unfold bind, ret.
  destruct (write_all specs base_data _) as [[[]|e] w]; reflexivity.
Qed.

(** Every lookup of the loop finds the column of the specification's
    type. *)
Lemma base_data_lookup spec :
  spec ∈ specs ->
  base_data !! type_name spec
  = Some (column_of_type generated_columns (arrow_type spec)).
Proof.
  intros Hin. pose proof specs_names as Hn.
  rewrite Forall_forall in Hn. destruct (Hn spec Hin) as [_ ->].
  rewrite base_data_columns. apply columns_by_name_lookup.
Qed.

(** The loop of [main] passes to [write_parquet] the column of the
    specification's type. *)
Lemma write_all_columns (table : list ColumnSpec) :
  (forall spec, spec ∈ table -> spec ∈ specs) ->
  forall w,
    write_all table base_data w
    = for_each table (fun spec =>
        write_parquet spec
          (column_of_type generated_columns (arrow_type spec))) w.
Proof.
  induction table as [|spec table IH]; intros Hsub w; [reflexivity|].
  rewrite write_all_cons.
  rewrite base_data_lookup by (apply Hsub; left).
  simpl. unfold bind.
  destruct (write_parquet spec _ w) as [[[]|e] w1]; [|reflexivity].
  apply IH. intros s Hs. apply Hsub. right. exact Hs.
Qed.

End RunFacts.

(** C7. The five columns are generated from the one engine seeded with
    42, in the order int32, float, int64, string, binary: each column is
    the 1000 successive results of its value function from the state the
    previous column left the engine in.  [base_data] holds exactly these
    five columns.  The generation changes neither the filesystem nor the
    output, and the loop that writes the files runs after it and leaves
    the engine alone. *)
Theorem columns_generated_in_order_before_writing
    {D : Distributions} {W : ParquetWriter} (fs : Filesystem) :
  let st0 := Mt19937.seed 42 in
  let n := Z.to_nat 1000 in
  let st1 := snd (draws int32_func n st0) in
  let st2 := snd (draws float_func n st1) in
  let st3 := snd (draws int64_func n st2) in
  let st4 := snd (draws string_func n st3) in
  let st5 := snd (draws binary_func n st4) in
  generate_array int32_func 1000 st0 = draws int32_func n st0 /\
  generate_array float_func 1000 st1 = draws float_func n st1 /\
  generate_array int64_func 1000 st2 = draws int64_func n st2 /\
  generate_array string_func 1000 st3 = draws string_func n st3 /\
  generate_array binary_func 1000 st4 = draws binary_func n st4 /\
  generate_base_data 1000 st0
  = (<["binary" := BinaryArray (fst (draws binary_func n st4))]>
      (<["string" := StringArray (fst (draws string_func n st3))]>
        (<["int64" := Int64Array (fst (draws int64_func n st2))]>
          (<["float" := FloatArray (fst (draws float_func n st1))]>
            (<["int32" := Int32Array (fst (draws int32_func n st0))]> ∅)))),
     st5) /\
  dom base_data = ({[ "int32"; "float"; "int64"; "string"; "binary" ]} : gset string) /\
  Forall (fun key => exists array,
            base_data !! key = Some array /\ array_length array = n)
         ["int32"; "float"; "int64"; "string"; "binary"] /\
  with_rng (generate_base_data 1000) (initial_world fs)
  = (Returns base_data, {| rng := st5; fsys := fs; cout := "" |}) /\
  main (initial_world fs)
  = match write_all specs base_data {| rng := st5; fsys := fs; cout := "" |} with
    | (Returns _, w) => (Returns 0, w)
    | (Throws e, w) => (Throws e, w)
    end /\
  rng (snd (main (initial_world fs))) = st5.
Proof.
  intros st0 n st1 st2 st3 st4 st5.
  assert (E5 : rng_after_generation = st5).
  { unfold rng_after_generation, columns_in_order. fold st0 n.
    subst st5 st4 st3 st2 st1.
    destruct (draws int32_func n st0) as [c1 s1]. cbn [snd].
    destruct (draws float_func n s1) as [c2 s2]. cbn [snd].
    destruct (draws int64_func n s2) as [c3 s3]. cbn [snd].
    destruct (draws string_func n s3) as [c4 s4]. cbn [snd].
    destruct (draws binary_func n s4) as [c5 s5]. reflexivity. }
  assert (EW : world_after_generation fs = {| rng := st5; fsys := fs; cout := "" |}).
  { unfold world_after_generation. rewrite E5. reflexivity. }
  split; [apply generate_array_draws|].
  split; [apply generate_array_draws|].
  split; [apply generate_array_draws|].
  split; [apply generate_array_draws|].
  split; [apply generate_array_draws|].
  split.
  { rewrite generate_base_data_columns. fold n st0.
    unfold columns_in_order. subst st5 st4 st3 st2 st1.
    destruct (draws int32_func n st0) as [c1 s1]. cbn [fst snd].
    destruct (draws float_func n s1) as [c2 s2]. cbn [fst snd].
    destruct (draws int64_func n s2) as [c3 s3]. cbn [fst snd].
    destruct (draws string_func n s3) as [c4 s4]. cbn [fst snd].
    destruct (draws binary_func n s4) as [c5 s5]. reflexivity. }
  split; [rewrite base_data_columns; apply dom_columns_by_name|].
  split.
  { destruct (columns_in_order_length n st0) as (L1 & L2 & L3 & L4 & L5).
    rewrite base_data_columns. fold generated_columns in L1, L2, L3, L4, L5.
    repeat (apply Forall_cons_2; [eexists; split; [reflexivity|assumption]|]).
    apply Forall_nil_2. }
  split; [rewrite <- EW; apply generation_world|].
  split; [rewrite <- EW; apply main_after_generation|].
  rewrite main_after_generation.
  destruct (write_all_frame specs base_data (world_after_generation fs))
    as (Hr & _). rewrite EW in *.
  destruct (write_all specs base_data _) as [[[]|e] w]; exact Hr.
Qed.

(** [write_parquet] raises no [std::out_of_range], so neither does a loop
    of calls of it. *)
Lemma loop_never_out_of_range {W : ParquetWriter} (cols : Columns) w :
  match for_each specs (fun spec =>
          write_parquet spec (column_of_type cols (arrow_type spec))) w with
  | (Returns _, _) => True
  | (Throws e, _) => e <> out_of_range
  end.
Proof.
  apply (for_each_invariant (fun _ => True) (fun e _ => e <> out_of_range));
    [|exact I].
  intros spec w0 _ _.
  pose proof (write_parquet_summary spec
                (column_of_type cols (arrow_type spec)) w0) as Hs.
  cbn zeta in Hs.
  destruct (write_parquet spec _ w0) as [[[]|e] w1]; cbn [fst snd] in Hs;
    [exact I|].
  apply Hs.
Qed.

(** C10. The type name of each of the 22 specifications is one of the five
    keys of [base_data], so the keyed lookup of the loop returns, and what
    it returns is the column generated for the specification's logical
    type: the loop passes that column to [write_parquet], the same one for
    all specifications of a type, and [main] never ends with
    [std::out_of_range]. *)
Theorem type_name_lookup_never_fails
    {D : Distributions} {W : ParquetWriter} (fs : Filesystem) :
  length specs = 22%nat /\
  dom base_data = ({[ "int32"; "float"; "int64"; "string"; "binary" ]} : gset string) /\
  Forall (fun spec =>
    let column := column_of_type generated_columns (arrow_type spec) in
    type_name spec ∈ ["int32"; "float"; "int64"; "string"; "binary"] /\
    base_data !! type_name spec = Some column /\
    array_type column = arrow_type spec /\
    array_length column = Z.to_nat 1000 /\
    (forall w, map_at base_data (type_name spec) w = (Returns column, w))) specs /\
  (forall w,
     write_all specs base_data w
     = for_each specs (fun spec =>
         write_parquet spec
           (column_of_type generated_columns (arrow_type spec))) w) /\
  fst (main (initial_world fs)) <> Throws out_of_range.
Proof.
  split; [reflexivity|].
  split; [rewrite base_data_columns; apply dom_columns_by_name|].
  split.
  { apply Forall_forall. intros spec Hin. cbn zeta.
    pose proof (base_data_lookup spec Hin) as Hl.
    pose proof specs_names as Hn. rewrite Forall_forall in Hn.
    destruct (Hn spec Hin) as [_ Hty].
    destruct (columns_in_order_length (Z.to_nat 1000) (Mt19937.seed 42))
      as (L1 & L2 & L3 & L4 & L5).
    fold generated_columns in L1, L2, L3, L4, L5.
    split.
    { rewrite Hty. destruct (arrow_type spec); simpl;
        repeat first [apply list_elem_of_here | apply list_elem_of_further]. }
    split; [exact Hl|].
    split; [destruct (arrow_type spec); reflexivity|].
    split; [destruct (arrow_type spec); simpl; assumption|].
    intros w. unfold map_at. rewrite Hl. reflexivity. }
  split; [apply write_all_columns; auto|].
  rewrite main_after_generation, write_all_columns by auto.
  pose proof (loop_never_out_of_range generated_columns
                (world_after_generation fs)) as Hinv.
  destruct (for_each specs _ _) as [[[]|e] w]; cbn [fst].
  - discriminate.
  - congruence.
Qed.

(* ===================================================================== *)
(** * The paths of the table *)
(* ===================================================================== *)

Lemma filenames_distinct : NoDup (map filename_of specs).
Proof. apply (bool_decide_unpack _). vm_compute. exact I. Qed.

(** An output directory lies in [data], an output file in its output
    directory, and no output directory has the name of an output file. *)
Lemma specs_paths :
  Forall (fun spec =>
            parent_path (directory_of spec) = "data" /\
            parent_path (filename_of spec) = directory_of spec /\
            directory_of spec ∉ map filename_of specs) specs.
Proof. apply (bool_decide_unpack _). vm_compute. exact I. Qed.

Lemma expected_lines_specs : unlines (map output_line specs) = unlines expected_lines.
Proof. vm_compute. reflexivity. Qed.

(* ===================================================================== *)
(** * Directories, failures and repeated runs *)
(* ===================================================================== *)

Lemma is_directory_mono fs fs' p :
  directories fs ⊆ directories fs' ->
  is_directory fs p = true -> is_directory fs' p = true.
Proof.
  unfold is_directory. rewrite !bool_decide_eq_true.
  intros Hsub [Hp|Hp]; [left; exact Hp|right; apply Hsub, Hp].
Qed.

Lemma is_regular_file_lookup fs fs' p :
  files fs' !! p = files fs !! p ->
  is_regular_file fs' p = is_regular_file fs p.
Proof. unfold is_regular_file. intros ->. reflexivity. Qed.

(** A result is the pair of what was returned and the world it left. *)
Lemma returns_eta {A} (x : result A * World) (a : A) :
  fst x = Returns a -> x = (Returns a, snd x).
Proof. destruct x as [r w]. simpl. intros ->. reflexivity. Qed.

(** Evaluation of a run for whatever the columns hold: the loop of [main]
    looks at them only through what the writer does with them. *)
Ltac run_with_any_columns :=
  repeat match goal with
    | |- context [@main ?D ?W (initial_world ?fs)] =>
        rewrite (@main_after_generation D W fs)
    | |- context [@base_data ?D] =>
        rewrite (@base_data_columns D)
    end;
  unfold world_after_generation;
  repeat match goal with
    | |- context [@generated_columns ?D] =>
        generalize (@generated_columns D); intro
    | |- context [@rng_after_generation ?D] =>
        generalize (@rng_after_generation D); intro
    end;
  vm_compute.

Lemma elem_of_map_app_l {A B} (f : A -> B) (l1 l2 : list A) y :
  y ∈ map f l1 -> y ∈ map f (l1 ++ l2).
Proof. rewrite map_app, elem_of_app. auto. Qed.

(** C3. In a run that starts in a filesystem where [data] is a directory
    and no regular file has the name of an output directory, whenever the
    loop reaches a specification, the creation of its output directory
    returns without error, whether the directory is already there (then
    nothing changes) or not (then it is added).  Afterwards the directory
    exists, creating it once more returns with no change, and the rest of
    [write_parquet] (opening the output file, which lies in that
    directory, writing and reporting) runs in the world the creation
    leaves. *)
Theorem output_directory_is_ensured
    {D : Distributions} {W : ParquetWriter}
    (fs : Filesystem) (pre post : list ColumnSpec) (spec : ColumnSpec) (w : World) :
  is_directory fs "data" = true ->
  Forall (fun spec' => is_regular_file fs (directory_of spec') = false) specs ->
  specs = pre ++ spec :: post ->
  write_all pre base_data (world_after_generation fs) = (Returns tt, w) ->
  let dir := directory_of spec in
  let array := column_of_type generated_columns (arrow_type spec) in
  let w1 := if is_directory (fsys w) dir then w
            else with_fs w (with_directory (fsys w) dir) in
  create_directory dir w = (Returns (negb (is_directory (fsys w) dir)), w1) /\
  is_directory (fsys w1) dir = true /\
  create_directory dir w1 = (Returns false, w1) /\
  parent_path (filename_of spec) = dir /\
  is_directory (fsys w1) (parent_path (filename_of spec)) = true /\
  write_parquet spec array w = open_write_report spec array w1.
Proof.
  intros Hdata Hfiles Hspecs Hrun dir array w1.
  assert (Hin : spec ∈ specs).
  { rewrite Hspecs, elem_of_app. right. left. }
  pose proof specs_paths as Hp. rewrite Forall_forall in Hp.
  destruct (Hp spec Hin) as (Hparent & Hfile & Hnot). fold dir in Hparent, Hfile, Hnot.
  destruct (write_all_frame pre base_data (world_after_generation fs))
    as (_ & Hd & Hf). rewrite Hrun in Hd, Hf. cbn [snd fsys world_after_generation] in Hd, Hf.
  assert (Hdata' : is_directory (fsys w) "data" = true).
  { apply is_directory_mono with fs; assumption. }
  assert (Hreg : is_regular_file (fsys w) dir = false).
  { rewrite Forall_forall in Hfiles. rewrite <- (Hfiles spec Hin).
    apply is_regular_file_lookup, Hf.
    intros Hc. apply Hnot. rewrite Hspecs. apply elem_of_map_app_l. exact Hc. }
  assert (Hcreate : create_directory dir w
                    = (Returns (negb (is_directory (fsys w) dir)), w1)).
  { destruct (create_directory_cases dir w)
      as [(E & ->)|[(E & [E'|E'] & _)|(E & _ & _ & ->)]].
    - subst w1. rewrite E. reflexivity.
    - congruence.
    - rewrite Hparent in E'. congruence.
    - subst w1. rewrite E. reflexivity. }
  assert (Hdir1 : is_directory (fsys w1) dir = true).
  { subst w1. destruct (is_directory (fsys w) dir) eqn:E; [exact E|].
    cbn [fsys with_fs]. rewrite is_directory_with_directory.
    rewrite bool_decide_eq_true_2 by reflexivity. reflexivity. }
  split; [exact Hcreate|]. split; [exact Hdir1|].
  split.
  { destruct (create_directory_cases dir w1)
      as [(_ & ->)|[(E & _)|(E & _)]]; [reflexivity|congruence|congruence]. }
  split; [exact Hfile|]. split; [rewrite Hfile; exact Hdir1|].
  rewrite write_parquet_create. fold dir. rewrite Hcreate. reflexivity.
Qed.

Lemma output_directory_is_ensured_witness :
  let D := Sample.distributions in
  let W := Sample.lenient_writer in
  let fs := Sample.rerun_fs in
  let pre := firstn 4 specs in
  let spec := spec_of PLAIN_DICTIONARY utf8 in
  let post := skipn 5 specs in
  let w := snd (write_all pre base_data (world_after_generation fs)) in
  let w1 := with_fs w (with_directory (fsys w) "data/PLAIN_DICTIONARY") in
  is_directory (fsys w) "data/PLAIN_DICTIONARY" = false /\
  create_directory "data/PLAIN_DICTIONARY" w = (Returns true, w1) /\
  create_directory "data/PLAIN_DICTIONARY" w1 = (Returns false, w1).
Proof.
  intros D W fs pre spec post w w1.
  assert (Hno : is_directory (fsys w) "data/PLAIN_DICTIONARY" = false).
  { subst w. run_with_any_columns. reflexivity. }
  destruct (@output_directory_is_ensured D W fs pre post spec w)
    as (H1 & _ & H3 & _).
  - vm_compute. reflexivity.
  - apply (bool_decide_unpack _). vm_compute. exact I.
  - reflexivity.
  - refine (returns_eta
              (write_all pre base_data (world_after_generation fs)) tt _).
    run_with_any_columns. reflexivity.
  - change (directory_of spec) with "data/PLAIN_DICTIONARY" in H1, H3.
    rewrite Hno in H1, H3. cbn [negb] in H1.
    split; [exact Hno|]. split; [exact H1|exact H3].
Defined.

(** The hypothesis on [data] cannot be dropped.  A working directory that
    holds nothing has no regular file in the way of an output directory
    and no directory in the way of an output file, and the writer accepts
    every table; with the directory [data] in place the run returns 0.
    Yet in it the creation of the first output directory, which does not
    exist, throws: [create_directory] does not make [data]. *)
Lemma output_directory_not_ensured_without_data :
  let D := Sample.distributions in
  let W := Sample.lenient_writer in
  Forall (fun spec =>
            is_regular_file Sample.empty_fs (directory_of spec) = false /\
            is_directory Sample.empty_fs (directory_of spec) = false /\
            is_directory Sample.empty_fs (filename_of spec) = false) specs /\
  fst (main (initial_world Sample.data_fs)) = Returns 0 /\
  create_directory "data/PLAIN" (world_after_generation Sample.empty_fs)
  = (Throws filesystem_error, world_after_generation Sample.empty_fs) /\
  fst (main (initial_world Sample.empty_fs)) = Throws filesystem_error /\
  ~ (forall (fs : Filesystem) (pre post : list ColumnSpec) (spec : ColumnSpec)
            (w : World),
       Forall (fun spec' => is_regular_file fs (directory_of spec') = false) specs ->
       specs = pre ++ spec :: post ->
       write_all pre base_data (world_after_generation fs) = (Returns tt, w) ->
       exists created w1,
         create_directory (directory_of spec) w = (Returns created, w1)).
Proof.
  intros D W.
  assert (Hfiles : Forall (fun spec =>
            is_regular_file Sample.empty_fs (directory_of spec) = false /\
            is_directory Sample.empty_fs (directory_of spec) = false /\
            is_directory Sample.empty_fs (filename_of spec) = false) specs).
  { unfold specs.
    repeat (apply Forall_cons_2; [repeat split; reflexivity|]).
    apply Forall_nil_2. }
  assert (Hcreate :
    create_directory "data/PLAIN" (world_after_generation Sample.empty_fs)
    = (Throws filesystem_error, world_after_generation Sample.empty_fs))
    by reflexivity.
  split; [exact Hfiles|].
  split; [run_with_any_columns; reflexivity|].
  split; [exact Hcreate|].
  split; [run_with_any_columns; reflexivity|].
  intros Hclaim.
  destruct (Hclaim Sample.empty_fs [] (tl specs) (spec_of PLAIN utf8)
              (world_after_generation Sample.empty_fs))
    as (created & w1 & Hc).
  - eapply Forall_impl; [exact Hfiles|]. intros spec H. apply H.
  - reflexivity.
  - reflexivity.
  - change (directory_of (spec_of PLAIN utf8)) with "data/PLAIN" in Hc.
    rewrite Hcreate in Hc. discriminate Hc.
Qed.

(** C8. If, for some specification of the table, the output file cannot
    be opened or the writer fails, [main] ends there with the exception:
    the result does not depend on the specifications that follow, what was
    printed is exactly the lines of the specifications before it, and the
    filesystem is left as it was at the failure, with whatever the writer
    had put in the file still in it. *)
Theorem failure_aborts_run
    {D : Distributions} {W : ParquetWriter}
    (fs : Filesystem) (pre post : list ColumnSpec) (spec : ColumnSpec)
    (w1 w2 : World) (created : bool) :
  let array := column_of_type generated_columns (arrow_type spec) in
  let file := filename_of spec in
  specs = pre ++ spec :: post ->
  write_all pre base_data (world_after_generation fs) = (Returns tt, w1) ->
  create_directory (directory_of spec) w1 = (Returns created, w2) ->
  (can_open (fsys w2) file = false \/
   exists partial,
     WriteTable (table_for spec array) 1024 (props_for spec) = WriteFailed partial) ->
  exists w3,
    main (initial_world fs) = (Throws ParquetException, w3) /\
    (forall post',
       write_all (pre ++ spec :: post') base_data (world_after_generation fs)
       = (Throws ParquetException, w3)) /\
    cout w3 = unlines (map output_line pre) /\
    rng w3 = rng w2 /\
    ((can_open (fsys w2) file = false /\ fsys w3 = fsys w2) \/
     (can_open (fsys w2) file = true /\
      exists partial,
        WriteTable (table_for spec array) 1024 (props_for spec) = WriteFailed partial /\
        fsys w3 = with_file (fsys w2) file partial /\
        files (fsys w3) !! file = Some partial)).
Proof.
  intros array file Hspecs Hpre Hcreate Hfail.
  assert (Hin : spec ∈ specs).
  { rewrite Hspecs, elem_of_app. right. left. }
  assert (Hsub : forall s, s ∈ pre -> s ∈ specs).
  { intros s Hs. rewrite Hspecs, elem_of_app. left. exact Hs. }
  (* what was printed before the failure *)
  assert (Hnd : NoDup (map filename_of pre)).
  { pose proof filenames_distinct as Hn. rewrite Hspecs, map_app in Hn.
    apply NoDup_app in Hn. apply Hn. }
  destruct (write_all_returns pre base_data _ _ Hnd Hpre) as [Hcout _].
  cbn [cout world_after_generation] in Hcout.
  (* the creation of the directory prints nothing *)
  assert (Hc2 : cout w2 = cout w1 /\ rng w2 = rng w1).
  { destruct (create_directory_cases (directory_of spec) w1)
      as [(_ & E)|[(_ & _ & E)|(_ & _ & _ & E)]];
      rewrite E in Hcreate; inversion Hcreate; subst; auto. }
  (* the failing call *)
  assert (Hstep : exists w3,
    write_parquet spec array w1 = (Throws ParquetException, w3) /\
    cout w3 = cout w2 /\ rng w3 = rng w2 /\
    ((can_open (fsys w2) file = false /\ fsys w3 = fsys w2) \/
     (can_open (fsys w2) file = true /\
      exists partial,
        WriteTable (table_for spec array) 1024 (props_for spec) = WriteFailed partial /\
        fsys w3 = with_file (fsys w2) file partial /\
        files (fsys w3) !! file = Some partial))).
  { rewrite write_parquet_create, Hcreate.
    destruct (open_write_report_cases spec array w2)
      as [(Eo & _ & ->)|[(Eo & p & Ew & ->)|(Eo & b & Ew & _)]].
    - exists w2. repeat (split; [reflexivity|]).
      left. split; [exact Eo|reflexivity].
    - exists (with_fs w2 (with_file (fsys w2) file p)).
      split; [reflexivity|]. split; [reflexivity|]. split; [reflexivity|].
      right. split; [exact Eo|]. exists p. split; [exact Ew|].
      split; [reflexivity|]. apply lookup_insert_eq.
    - fold file in Eo. destruct Hfail as [Hf|[p Hp]]; congruence. }
  destruct Hstep as (w3 & Hw & Hc3 & Hr3 & Hfs).
  assert (Hall : forall post',
    write_all (pre ++ spec :: post') base_data (world_after_generation fs)
    = (Throws ParquetException, w3)).
  { intros post'. unfold write_all. rewrite for_each_app.
    fold (write_all pre base_data (world_after_generation fs)). rewrite Hpre.
    fold (write_all (spec :: post') base_data w1).
    rewrite write_all_cons, (base_data_lookup spec Hin).
    fold array. rewrite Hw. reflexivity. }
  exists w3. split.
  { rewrite main_after_generation, Hspecs, Hall. reflexivity. }
  split; [exact Hall|]. split.
  { rewrite Hc3. destruct Hc2 as [-> _]. rewrite Hcout. reflexivity. }
  split; [exact Hr3|exact Hfs].
Qed.

Lemma failure_aborts_run_witness :
  let D := Sample.distributions in
  let W := Sample.strict_writer in
  let fs := Sample.data_fs in
  let pre := firstn 14 specs in
  let spec := spec_of RLE utf8 in
  let post := skipn 15 specs in
  let w1 := snd (write_all pre base_data (world_after_generation fs)) in
  let w2 := snd (create_directory "data/RLE" w1) in
  exists w3,
    main (initial_world fs) = (Throws ParquetException, w3) /\
    cout w3 = unlines (firstn 14 expected_lines) /\
    files (fsys w3) !! "data/RLE/string.parquet" = Some Sample.magic.
Proof.
  intros D W fs pre spec post w1 w2.
  destruct (@failure_aborts_run D W fs pre post spec w1 w2 true)
    as (w3 & Hmain & _ & Hcout & _ & Hfs).
  - reflexivity.
  - refine (returns_eta
              (write_all pre base_data (world_after_generation fs)) tt _).
    run_with_any_columns. reflexivity.
  - refine (returns_eta (create_directory "data/RLE" w1) true _).
    subst w1. run_with_any_columns. reflexivity.
  - right. exists Sample.magic. reflexivity.
  - assert (Hcan : can_open (fsys w2) (filename_of spec) = true).
    { subst w2 w1. run_with_any_columns. reflexivity. }
    assert (HW : @WriteTable W
                   (table_for spec
                      (column_of_type generated_columns (arrow_type spec)))
                   1024 (props_for spec)
                 = WriteFailed Sample.magic) by reflexivity.
    exists w3. split; [exact Hmain|]. split.
    + rewrite Hcout. vm_compute. reflexivity.
    + destruct Hfs as [[Hopen _]|(_ & partial & Hw & _ & Hfile)].
      * rewrite Hcan in Hopen. discriminate Hopen.
      * rewrite HW in Hw. injection Hw as <-. exact Hfile.
Defined.

(** A run in which the first output file cannot be opened: it ends with
    the exception of the open, nothing printed, the filesystem as it
    was. *)
Example open_failure_sample {D : Distributions} :
  @main D Sample.lenient_writer (initial_world Sample.blocked_fs)
  = (Throws ParquetException, world_after_generation Sample.blocked_fs).
Proof. run_with_any_columns. reflexivity. Qed.

(** The creation of an output directory does not create [data]: without
    it the run ends at the first specification. *)
Example missing_data_directory_sample {D : Distributions} :
  @main D Sample.lenient_writer (initial_world Sample.empty_fs)
  = (Throws filesystem_error, world_after_generation Sample.empty_fs).
Proof. run_with_any_columns. reflexivity. Qed.

(** C9. The run is determined by the program alone: two runs that return,
    from any two initial filesystems, have generated the same columns,
    have printed the same output, namely the 22 lines
    [Wrote data/<encoding-name>/<type-name>.parquet] in table order, have
    left the engine in the same state, and have put into every output file
    the same bytes, those the writer emits for the table of the
    specification's column. *)
Theorem runs_are_deterministic
    {D : Distributions} {W : ParquetWriter}
    (fs1 fs2 : Filesystem) (r1 r2 : Z) (w1 w2 : World) :
  main (initial_world fs1) = (Returns r1, w1) ->
  main (initial_world fs2) = (Returns r2, w2) ->
  r1 = 0 /\ r2 = 0 /\
  fst (with_rng (generate_base_data 1000) (initial_world fs1))
  = fst (with_rng (generate_base_data 1000) (initial_world fs2)) /\
  cout w1 = unlines expected_lines /\
  cout w2 = unlines expected_lines /\
  unlines expected_lines = unlines (map output_line specs) /\
  rng w1 = rng w2 /\
  Forall (fun spec =>
    exists bytes,
      WriteTable (table_for spec (column_of_type generated_columns (arrow_type spec)))
                 1024 (props_for spec) = Written bytes /\
      files (fsys w1) !! filename_of spec = Some bytes /\
      files (fsys w2) !! filename_of spec = Some bytes) specs.
Proof.
  intros H1 H2. rewrite main_after_generation in H1, H2.
  destruct (write_all specs base_data (world_after_generation fs1))
    as [[[]|e1] w1'] eqn:E1; [|discriminate].
  destruct (write_all specs base_data (world_after_generation fs2))
    as [[[]|e2] w2'] eqn:E2; [|discriminate].
  injection H1 as <- <-. injection H2 as <- <-.
  destruct (write_all_returns specs base_data _ _ filenames_distinct E1)
    as [Hc1 Hf1].
  destruct (write_all_returns specs base_data _ _ filenames_distinct E2)
    as [Hc2 Hf2].
  destruct (write_all_frame specs base_data (world_after_generation fs1))
    as (Hr1 & _). rewrite E1 in Hr1.
  destruct (write_all_frame specs base_data (world_after_generation fs2))
    as (Hr2 & _). rewrite E2 in Hr2.
  cbn [cout rng snd world_after_generation] in Hc1, Hc2, Hr1, Hr2.
  split; [reflexivity|]. split; [reflexivity|].
  split; [rewrite !generation_world; reflexivity|].
  split; [rewrite Hc1; apply expected_lines_specs|].
  split; [rewrite Hc2; apply expected_lines_specs|].
  split; [symmetry; apply expected_lines_specs|].
  split; [congruence|].
  rewrite Forall_forall in Hf1, Hf2. apply Forall_forall. intros spec Hin.
  destruct (Hf1 spec Hin) as (a1 & b1 & Ha1 & Hb1 & Hfile1).
  destruct (Hf2 spec Hin) as (a2 & b2 & Ha2 & Hb2 & Hfile2).
  rewrite (base_data_lookup spec Hin) in Ha1, Ha2.
  injection Ha1 as <-. injection Ha2 as <-.
  exists b1. split; [exact Hb1|]. split; [exact Hfile1|].
  rewrite Hfile2. congruence.
Qed.

Lemma runs_are_deterministic_witness :
  let D := Sample.distributions in
  let W := Sample.lenient_writer in
  let w1 := snd (main (initial_world Sample.data_fs)) in
  let w2 := snd (main (initial_world Sample.rerun_fs)) in
  cout w1 = unlines expected_lines /\
  cout w2 = unlines expected_lines /\
  files (fsys w1) !! "data/PLAIN/string.parquet"
  = files (fsys w2) !! "data/PLAIN/string.parquet".
Proof.
  intros D W w1 w2.
  destruct (@runs_are_deterministic D W Sample.data_fs Sample.rerun_fs 0 0 w1 w2)
    as (_ & _ & _ & Hc1 & Hc2 & _ & _ & Hfiles).
  - refine (returns_eta (main (initial_world Sample.data_fs)) 0 _).
    run_with_any_columns. reflexivity.
  - refine (returns_eta (main (initial_world Sample.rerun_fs)) 0 _).
    run_with_any_columns. reflexivity.
  - split; [exact Hc1|]. split; [exact Hc2|].
    rewrite Forall_forall in Hfiles.
    destruct (Hfiles (spec_of PLAIN utf8)) as (bytes & _ & Hf1 & Hf2).
    { unfold specs. left. }
    change (filename_of (spec_of PLAIN utf8)) with "data/PLAIN/string.parquet"
      in Hf1, Hf2.
    rewrite Hf1, Hf2. reflexivity.
Defined.

(* ===================================================================== *)
(** * More on the generation of arrays *)
(* ===================================================================== *)

Lemma draws_app {A} (func : Rand A) (j k : nat) st :
  draws func (j + k) st
  = (fst (draws func j st) ++ fst (draws func k (snd (draws func j st))),
     snd (draws func k (snd (draws func j st)))).
Proof.
  revert st. induction j as [|j IH]; intros st; simpl.
  - destruct (draws func k st). reflexivity.
  - destruct (func st) as [v st1]. rewrite IH.
    destruct (draws func j st1) as [vs st2]. reflexivity.
Qed.

Lemma draws_rng_call_state k st :
  snd (draws rng_call k st) = Mt19937.discard k st.
Proof.
  revert st. induction k as [|k IH]; intros st; [reflexivity|].
  cbn [draws Mt19937.discard]. change (rng_call st) with (Mt19937.next st).
  destruct (Mt19937.next st) as [r st1]. cbn [snd]. rewrite <- IH.
  destruct (draws rng_call k st1) as [rs st2]. reflexivity.
Qed.

(** X1. [generate_array] returns the successive results of [func], as
    many as [num_rows] says and none when [num_rows] is zero or negative:
    then the array is empty and the engine is where it was. *)
Theorem generate_array_rows {A} (func : Rand A) (num_rows : Z) st :
  generate_array func num_rows st = draws func (Z.to_nat num_rows) st /\
  Z.of_nat (length (fst (generate_array func num_rows st))) = Z.max 0 num_rows /\
  generate_array func (Z.min 0 num_rows) st = ([], st).
Proof.
  split; [apply generate_array_draws|]. split.
  - rewrite generate_array_draws, draws_length. lia.
  - rewrite generate_array_draws.
    replace (Z.to_nat (Z.min 0 num_rows)) with 0%nat by lia. reflexivity.
Qed.

(** X2. An array of [m + n] rows is the array of [m] rows followed by the
    array of [n] rows generated from where the first left the engine: the
    first rows of an array do not depend on how many follow. *)
Theorem generate_array_split {A} (func : Rand A) (m n : Z) st :
  0 <= m -> 0 <= n ->
  generate_array func (m + n) st
  = (fst (generate_array func m st)
       ++ fst (generate_array func n (snd (generate_array func m st))),
     snd (generate_array func n (snd (generate_array func m st)))).
Proof.
  intros Hm Hn. rewrite !generate_array_draws.
  rewrite Z2Nat.inj_add by assumption. apply draws_app.
Qed.

Lemma generate_array_split_witness :
  generate_array int64_func (2 + 1) (Mt19937.seed 42)
  = (fst (generate_array int64_func 2 (Mt19937.seed 42))
       ++ fst (generate_array int64_func 1
                 (snd (generate_array int64_func 2 (Mt19937.seed 42)))),
     snd (generate_array int64_func 1
            (snd (generate_array int64_func 2 (Mt19937.seed 42))))).
Proof. apply generate_array_split; lia. Defined.

(** X3. An array of the int64 value function takes one output of the
    engine per row, in order: the rows are the outputs times 256, the
    engine is left where that many calls leave it, and shifting a row
    right by 8 bits gives the output back. *)
Theorem int64_rows_are_outputs (num_rows : Z) st :
  Mt19937.wf st ->
  let outputs := fst (draws rng_call (Z.to_nat num_rows) st) in
  let rows := fst (generate_array int64_func num_rows st) in
  rows = map (fun r => r * 256) outputs /\
  snd (generate_array int64_func num_rows st)
  = Mt19937.discard (Z.to_nat num_rows) st /\
  map (fun v => Z.shiftr v 8) rows = outputs.
Proof.
  intros H outputs rows. subst rows. rewrite generate_array_draws.
  pose proof (draws_map rng_call (fun r => shl_int64 (to_int64 r) 8)
                (Z.to_nat num_rows) st) as E.
  change (draws int64_func (Z.to_nat num_rows) st
          = (map (fun r => shl_int64 (to_int64 r) 8) outputs,
             snd (draws rng_call (Z.to_nat num_rows) st))) in E.
  rewrite E. cbn [fst snd].
  pose proof (draws_rng_call_range (Z.to_nat num_rows) st H) as Hw.
  fold outputs in Hw.
  assert (E1 : map (fun r => shl_int64 (to_int64 r) 8) outputs
               = map (fun r => r * 256) outputs).
  { clear E. induction Hw as [|r rs Hr _ IH]; simpl; [reflexivity|].
    destruct (shl_int64_word r Hr) as (_ & _ & ->). f_equal. exact IH. }
  rewrite E1. split; [reflexivity|]. split; [apply draws_rng_call_state|].
  clear E E1. induction Hw as [|r rs Hr _ IH]; simpl; [reflexivity|].
  f_equal; [|exact IH].
  rewrite Z.shiftr_div_pow2 by lia. change (2 ^ 8) with 256.
  apply Z.div_mul. lia.
Qed.

Lemma int64_rows_are_outputs_witness :
  Mt19937.wf (Mt19937.seed 42) /\
  fst (generate_array int64_func 2 (Mt19937.seed 42))
  = [1608637542 * 256; 3421126067 * 256] /\
  map (fun v => Z.shiftr v 8) (fst (generate_array int64_func 2 (Mt19937.seed 42)))
  = [1608637542; 3421126067].
Proof.
  split; [apply seed_wf|].
  destruct (int64_rows_are_outputs 2 (Mt19937.seed 42) (seed_wf 42))
    as (H1 & _ & H3).
  split.
  - rewrite H1. vm_compute. reflexivity.
  - rewrite H3. vm_compute. reflexivity.
Defined.

Lemma to_uint8_low_byte r : to_uint8 (r mod 256) = r mod 256.
Proof. unfold to_uint8. apply Z.mod_mod. lia. Qed.

(** The loop that fills the vector from index [i] on leaves what is
    before [i] and puts the low bytes of the next outputs after it. *)
Lemma fill_bytes_outputs k : forall i (bytes : list Z) st,
  length bytes = (i + k)%nat ->
  fill_bytes k i bytes st
  = (take i bytes ++ map (fun r => r mod 256) (fst (draws rng_call k st)),
     Mt19937.discard k st).
Proof.
  induction k as [|k IH]; intros i bytes st Hlen.
  - cbn [fill_bytes draws fst map Mt19937.discard]. unfold rand_ret.
    rewrite app_nil_r, take_ge by lia. reflexivity.
  - cbn [fill_bytes draws Mt19937.discard]. unfold rand_bind.
    change (rng_call st) with (Mt19937.next st).
    destruct (Mt19937.next st) as [r st1]. cbn [snd].
    rewrite IH by (rewrite length_insert; lia).
    destruct (draws rng_call k st1) as [rs st2]. cbn [fst map].
    f_equal.
    rewrite (take_S_r _ _ (to_uint8 (r mod 256)))
      by (apply list_lookup_insert_eq; lia).
    rewrite take_insert_ge by lia.
    rewrite to_uint8_low_byte, <- app_assoc. reflexivity.
Qed.

(** X4. A value of the binary column: for the length [len] the
    distribution on [3, 15] returns, its bytes are the low bytes of the
    next [len] outputs of the engine, in order (no byte keeps the zero the
    vector was created with), and the engine is left where these [len]
    calls leave it. *)
Theorem binary_value_is_low_bytes {D : Distributions} st :
  let len := fst (uniform_int_distribution 3 15 st) in
  let st1 := snd (uniform_int_distribution 3 15 st) in
  binary_func st
  = (map (fun r => r mod 256) (fst (draws rng_call (Z.to_nat len) st1)),
     Mt19937.discard (Z.to_nat len) st1).
Proof.
  intros len st1. unfold binary_func, rand_bind, rand_ret.
  subst len st1. destruct (uniform_int_distribution 3 15 st) as [len st1].
  cbn [fst snd].
  rewrite fill_bytes_outputs by (rewrite length_replicate; lia).
  reflexivity.
Qed.

(* ===================================================================== *)
(** * The paths of a specification *)
(* ===================================================================== *)

Lemma string_length_app (s1 s2 : string) :
  String.length (s1 +:+ s2) = (String.length s1 + String.length s2)%nat.
Proof.
  induction s1 as [|ch s1 IH]; [reflexivity|].
  change (S (String.length (s1 +:+ s2))
          = S (String.length s1 + String.length s2)).
  f_equal. exact IH.
Qed.

Lemma string_app_inv_r (s1 s2 x : string) : s1 +:+ x = s2 +:+ x -> s1 = s2.
Proof.
  revert s2. induction s1 as [|c1 s1 IH]; intros [|c2 s2] H.
  - reflexivity.
  - apply (f_equal String.length) in H.
    change (String.length x = S (String.length (s2 +:+ x))) in H.
    rewrite string_length_app in H. lia.
  - apply (f_equal String.length) in H.
    change (S (String.length (s1 +:+ x)) = String.length x) in H.
    rewrite string_length_app in H. lia.
  - change (String c1 (s1 +:+ x) = String c2 (s2 +:+ x)) in H.
    injection H as -> H. f_equal. apply IH, H.
Qed.

(** Two names without separator, each followed by a separator and more,
    are equal when the whole strings are. *)
Lemma split_at_separator (e1 e2 r1 r2 : string) :
  has_separator e1 = false -> has_separator e2 = false ->
  e1 +:+ String "/" r1 = e2 +:+ String "/" r2 ->
  e1 = e2 /\ r1 = r2.
Proof.
  revert e2. induction e1 as [|c1 e1 IH]; intros [|c2 e2] H1 H2 H.
  - injection H as ->. auto.
  - change (String "/" r1 = String c2 (e2 +:+ String "/" r2)) in H.
    injection H as <- _. simpl in H2. discriminate H2.
  - change (String c1 (e1 +:+ String "/" r1) = String "/" r2) in H.
    injection H as -> _. simpl in H1. discriminate H1.
  - change (String c1 (e1 +:+ String "/" r1)
            = String c2 (e2 +:+ String "/" r2)) in H.
    injection H as -> H. simpl in H1, H2.
    destruct (Ascii.eqb c2 "/"); [discriminate|].
    destruct (IH e2 H1 H2 H) as [-> ->]. auto.
Qed.

(** X5. Specifications that differ in their encoding name or type name
    are written to different files, provided the encoding names hold no
    path separator. *)
Theorem filename_of_injective (spec1 spec2 : ColumnSpec) :
  has_separator (encoding_name spec1) = false ->
  has_separator (encoding_name spec2) = false ->
  filename_of spec1 = filename_of spec2 ->
  encoding_name spec1 = encoding_name spec2 /\
  type_name spec1 = type_name spec2.
Proof.
  intros H1 H2 H. unfold filename_of in H.
  change ("data/" +:+ encoding_name spec1 +:+ "/" +:+ type_name spec1 +:+ ".parquet")
    with (String "d" (String "a" (String "t" (String "a" (String "/"
            (encoding_name spec1 +:+ String "/" (type_name spec1 +:+ ".parquet")))))))
    in H.
  change ("data/" +:+ encoding_name spec2 +:+ "/" +:+ type_name spec2 +:+ ".parquet")
    with (String "d" (String "a" (String "t" (String "a" (String "/"
            (encoding_name spec2 +:+ String "/" (type_name spec2 +:+ ".parquet")))))))
    in H.
  injection H as H.
  destruct (split_at_separator _ _ _ _ H1 H2 H) as [He Ht].
  split; [exact He|]. apply string_app_inv_r with ".parquet". exact Ht.
Qed.

Lemma filename_of_injective_witness :
  has_separator (encoding_name (spec_of PLAIN int32)) = false /\
  has_separator (encoding_name (spec_of RLE int32)) = false /\
  filename_of (spec_of PLAIN int32) <> filename_of (spec_of RLE int32).
Proof.
  split; [reflexivity|]. split; [reflexivity|].
  intros H.
  destruct (filename_of_injective (spec_of PLAIN int32) (spec_of RLE int32)
              eq_refl eq_refl H) as [He _].
  discriminate He.
Defined.

(** With a separator in an encoding name, two specifications can share a
    file. *)
Example filename_collision :
  filename_of {| encoding_name := "A/B"; encoding := PLAIN;
                 type_name := "C"; arrow_type := int32 |}
  = filename_of {| encoding_name := "A"; encoding := PLAIN;
                   type_name := "B/C"; arrow_type := int32 |}.
Proof. reflexivity. Qed.

(* ===================================================================== *)
(** * The outcomes of [write_parquet] *)
(* ===================================================================== *)

Lemma with_fs_same w : with_fs w (fsys w) = w.
Proof. destruct w. reflexivity. Qed.

Lemma is_directory_ensure fs dir p :
  is_directory (ensure_directory fs dir) p
  = is_directory fs p || bool_decide (p = dir).
Proof.
  unfold ensure_directory. destruct (is_directory fs dir) eqn:E.
  - destruct (bool_decide (p = dir)) eqn:Ep.
    + apply bool_decide_eq_true in Ep. subst p. rewrite E. reflexivity.
    + rewrite orb_false_r. reflexivity.
  - rewrite is_directory_with_directory. apply orb_comm.
Qed.

Lemma is_directory_ensure_same fs dir :
  is_directory (ensure_directory fs dir) dir = true.
Proof.
  rewrite is_directory_ensure, bool_decide_eq_true_2 by reflexivity.
  apply orb_true_r.
Qed.

Lemma directories_ensure fs dir :
  directories fs ⊆ directories (ensure_directory fs dir) /\
  directories (ensure_directory fs dir) ⊆ {[ dir ]} ∪ directories fs.
Proof.
  unfold ensure_directory. destruct (is_directory fs dir); simpl.
  - split; [reflexivity|apply union_subseteq_r].
  - split; [apply union_subseteq_r|reflexivity].
Qed.

Lemma is_directory_with_file fs file content p :
  is_directory (with_file fs file content) p = is_directory fs p.
Proof. reflexivity. Qed.

Lemma is_regular_file_with_file fs file content p :
  p <> file ->
  is_regular_file (with_file fs file content) p = is_regular_file fs p.
Proof.
  intros Hne. apply is_regular_file_lookup. unfold with_file. cbn [files].
  apply lookup_insert_ne. congruence.
Qed.

Lemma files_ensure fs dir : files (ensure_directory fs dir) = files fs.
Proof. unfold ensure_directory. destruct (is_directory fs dir); reflexivity. Qed.

Section OutcomeFacts.

Context {W : ParquetWriter}.

Lemma create_directory_closed p w :
  create_directory p w
  = if can_create (fsys w) p
    then (Returns (negb (is_directory (fsys w) p)),
          with_fs w (ensure_directory (fsys w) p))
    else (Throws filesystem_error, w).
Proof.
  unfold can_create, ensure_directory.
  destruct (create_directory_cases p w)
    as [(E & ->)|[(E & [E'|E'] & ->)|(E & E1 & E2 & ->)]];
    rewrite E; cbn [orb negb].
  - rewrite with_fs_same. reflexivity.
  - rewrite E'. reflexivity.
  - rewrite E'. rewrite andb_false_r. reflexivity.
  - rewrite E1, E2. reflexivity.
Qed.

Lemma open_write_report_closed spec array w :
  open_write_report spec array w
  = if can_open (fsys w) (filename_of spec)
    then match WriteTable (table_for spec array) 1024 (props_for spec) with
         | Written bytes =>
             (Returns tt,
              {| rng := rng w;
                 fsys := with_file (fsys w) (filename_of spec) bytes;
                 cout := cout w +:+ output_line spec +:+ newline |})
         | WriteFailed partial =>
             (Throws ParquetException,
              with_fs w (with_file (fsys w) (filename_of spec) partial))
         end
    else (Throws ParquetException, w).
Proof.
  destruct (open_write_report_cases spec array w)
    as [(E & _ & ->)|[(E & p & Ew & ->)|(E & b & Ew & ->)]];
    cbn zeta in E; rewrite E; [reflexivity| |]; rewrite Ew; reflexivity.
Qed.

(** The four outcomes of [write_parquet], by the state of the filesystem
    and the answer of the writer. *)
Lemma write_parquet_closed spec array w :
  let dir := directory_of spec in
  let file := filename_of spec in
  let fs1 := ensure_directory (fsys w) dir in
  write_parquet spec array w
  = if can_create (fsys w) dir then
      if can_open fs1 file then
        match WriteTable (table_for spec array) 1024 (props_for spec) with
        | Written bytes =>
            (Returns tt,
             {| rng := rng w; fsys := with_file fs1 file bytes;
                cout := cout w +:+ output_line spec +:+ newline |})
        | WriteFailed partial =>
            (Throws ParquetException, with_fs w (with_file fs1 file partial))
        end
      else (Throws ParquetException, with_fs w fs1)
    else (Throws filesystem_error, w).
Proof.
  intros dir file fs1. rewrite write_parquet_create, create_directory_closed.
  fold dir. destruct (can_create (fsys w) dir); [|reflexivity].
  rewrite open_write_report_closed. cbn [fsys with_fs rng cout]. fold file fs1.
  reflexivity.
Qed.

End OutcomeFacts.

(** X6. [write_parquet] ends with a filesystem error exactly when the
    output directory is not there and cannot be made (a regular file has
    its name, or its parent directory is missing), and then it has changed
    nothing. *)
Theorem write_parquet_filesystem_error
    {W : ParquetWriter} (spec : ColumnSpec) (array : Array) (w : World) :
  (fst (write_parquet spec array w) = Throws filesystem_error
   <-> is_directory (fsys w) (directory_of spec) = false /\
       (is_regular_file (fsys w) (directory_of spec) = true \/
        is_directory (fsys w) (parent_path (directory_of spec)) = false)) /\
  (fst (write_parquet spec array w) = Throws filesystem_error
   -> snd (write_parquet spec array w) = w).
Proof.
  rewrite write_parquet_closed. cbn zeta. unfold can_create.
  destruct (is_directory (fsys w) (directory_of spec)) eqn:E1; cbn [orb].
  - split; [split|].
    + destruct (can_open _ _); [destruct (WriteTable _ _ _)|]; discriminate.
    + intros [H _]. discriminate H.
    + destruct (can_open _ _); [destruct (WriteTable _ _ _)|]; discriminate.
  - destruct (is_regular_file (fsys w) (directory_of spec)) eqn:E2; cbn [negb andb].
    + split; [split|]; auto.
    + destruct (is_directory (fsys w) (parent_path (directory_of spec))) eqn:E3.
      * split; [split|].
        -- destruct (can_open _ _); [destruct (WriteTable _ _ _)|]; discriminate.
        -- intros [_ [H|H]]; discriminate H.
        -- destruct (can_open _ _); [destruct (WriteTable _ _ _)|]; discriminate.
      * split; [split|]; auto.
Qed.

(** X7. [write_parquet] returns exactly when the output directory is
    there or can be made, the output file can then be opened, and the
    writer succeeds.  It then leaves the engine alone, has the directory
    in place, has put in the file what the writer emitted, whatever the
    file held before, and has printed its line. *)
Theorem write_parquet_returns
    {W : ParquetWriter} (spec : ColumnSpec) (array : Array) (w : World) :
  let dir := directory_of spec in
  let file := filename_of spec in
  let fs1 := ensure_directory (fsys w) dir in
  (fst (write_parquet spec array w) = Returns tt
   <-> can_create (fsys w) dir = true /\
       can_open fs1 file = true /\
       exists bytes,
         WriteTable (table_for spec array) 1024 (props_for spec) = Written bytes) /\
  (forall bytes,
     WriteTable (table_for spec array) 1024 (props_for spec) = Written bytes ->
     fst (write_parquet spec array w) = Returns tt ->
     snd (write_parquet spec array w)
     = {| rng := rng w; fsys := with_file fs1 file bytes;
          cout := cout w +:+ output_line spec +:+ newline |} /\
     is_directory (fsys (snd (write_parquet spec array w))) dir = true /\
     files (fsys (snd (write_parquet spec array w))) !! file = Some bytes).
Proof.
  intros dir file fs1. rewrite write_parquet_closed. cbn zeta. fold dir file fs1.
  destruct (can_create (fsys w) dir) eqn:E1.
  2: { split; [split|]; [discriminate|intros [H _]; discriminate H|discriminate]. }
  destruct (can_open fs1 file) eqn:E2.
  2: { split; [split|]; [discriminate|intros (_ & H & _); discriminate H|discriminate]. }
  destruct (WriteTable _ _ _) as [bytes|partial] eqn:E3.
  - split; [split|].
    + intros _. eauto.
    + reflexivity.
    + intros b [= <-] _. cbn [fst snd fsys]. split; [reflexivity|]. split.
      * unfold with_file, is_directory. cbn [directories].
        apply (is_directory_ensure_same (fsys w) dir).
      * apply lookup_insert_eq.
  - split; [split|]; [discriminate| |discriminate].
    intros (_ & _ & b & H). discriminate H.
Qed.

(* ===================================================================== *)
(** * More on the run of [main] *)
(* ===================================================================== *)

Lemma string_app_empty_r (s : string) : s +:+ "" = s.
Proof.
  induction s as [|ch s IHs]; [reflexivity|].
  change (String ch (s +:+ "") = String ch s). f_equal. exact IHs.
Qed.

Lemma expected_lines_map : map output_line specs = expected_lines.
Proof. vm_compute. reflexivity. Qed.

Section RunOutcomeFacts.

Context {W : ParquetWriter}.

(** The loop completes the first [k] specifications of its table, for
    some [k], printing their lines; it returns in the world these leave if
    they are all, and else ends with what specification [k] throws in
    that world, nothing more printed. *)
Lemma write_all_stops table bd : forall w,
  exists k wk,
    write_all (take k table) bd w = (Returns tt, wk) /\
    cout wk = cout w +:+ unlines (map output_line (take k table)) /\
    match write_all table bd w with
    | (Returns _, w') => k = length table /\ w' = wk
    | (Throws e, w') =>
        exists spec,
          table !! k = Some spec /\
          write_all [spec] bd wk = (Throws e, w') /\
          cout w' = cout wk
    end.
Proof.
  induction table as [|spec table IH]; intros w.
  - exists 0%nat, w. cbn [take write_all for_each ret map unlines length].
    rewrite string_app_empty_r. auto.
  - rewrite write_all_cons.
    destruct (bd !! type_name spec) as [array|] eqn:Hbd.
    2: { exists 0%nat, w. cbn [take map unlines]. rewrite string_app_empty_r.
         split; [reflexivity|]. split; [reflexivity|].
         exists spec. split; [reflexivity|].
         rewrite write_all_cons, Hbd. auto. }
    destruct (write_parquet_summary spec array w) as (_ & _ & _ & Hres).
    destruct (write_parquet spec array w) as [[[]|e] w1] eqn:Hstep;
      cbn [fst snd] in Hres.
    + destruct Hres as [Hc _]. destruct (IH w1) as (k & wk & Hk & Hck & Hm).
      exists (S k), wk. cbn [take].
      split; [rewrite write_all_cons, Hbd, Hstep; exact Hk|].
      split.
      * rewrite Hck, Hc. cbn [map].
        change (unlines (output_line spec :: map output_line (take k table)))
          with (output_line spec +:+ newline
                  +:+ unlines (map output_line (take k table))).
        rewrite !string_app_assoc. reflexivity.
      * destruct (write_all table bd w1) as [[[]|e] w'].
        -- destruct Hm as [-> ->]. auto.
        -- exact Hm.
    + destruct Hres as [Hc _]. exists 0%nat, w. cbn [take map unlines].
      rewrite string_app_empty_r.
      split; [reflexivity|]. split; [reflexivity|].
      exists spec. split; [reflexivity|].
      rewrite write_all_cons, Hbd, Hstep. auto.
Qed.

(** [write_parquet] makes no directory but the output directory. *)
Lemma write_parquet_directories spec array w :
  directories (fsys (snd (write_parquet spec array w)))
  ⊆ {[ directory_of spec ]} ∪ directories (fsys w).
Proof.
  rewrite write_parquet_closed. cbn zeta.
  destruct (directories_ensure (fsys w) (directory_of spec)) as [_ Hup].
  destruct (can_create _ _); [|cbn [snd]; apply union_subseteq_r].
  destruct (can_open _ _); [destruct (WriteTable _ _ _)|];
    cbn [snd fsys with_fs with_file directories]; exact Hup.
Qed.

Lemma write_all_directories table bd : forall w,
  directories (fsys (snd (write_all table bd w)))
  ⊆ output_directories table ∪ directories (fsys w).
Proof.
  unfold output_directories.
  induction table as [|spec table IH]; intros w.
  - cbn [write_all for_each ret snd]. apply union_subseteq_r.
  - rewrite write_all_cons. cbn [map list_to_set].
    destruct (bd !! type_name spec) as [array|];
      [|cbn [snd]; apply union_subseteq_r].
    pose proof (write_parquet_directories spec array w) as H1.
    destruct (write_parquet spec array w) as [[[]|e] w1]; cbn [snd] in *.
    + intros p Hp. apply IH in Hp.
      rewrite !elem_of_union in *. destruct Hp as [Hp|Hp]; [tauto|].
      apply H1 in Hp. rewrite elem_of_union in Hp. tauto.
    + intros p Hp. apply H1 in Hp. rewrite !elem_of_union in *. tauto.
Qed.

(** [write_parquet] removes no file. *)
Lemma write_parquet_keeps_files spec array w p :
  is_Some (files (fsys w) !! p) ->
  is_Some (files (fsys (snd (write_parquet spec array w))) !! p).
Proof.
  intros Hp. destruct (decide (p = filename_of spec)) as [->|Hne].
  - rewrite write_parquet_closed. cbn zeta.
    destruct (can_create _ _); [|exact Hp].
    destruct (can_open _ _); [destruct (WriteTable _ _ _)|];
      cbn [snd fsys with_fs with_file files].
    + rewrite lookup_insert_eq. eauto.
    + rewrite lookup_insert_eq. eauto.
    + rewrite files_ensure. exact Hp.
  - destruct (write_parquet_summary spec array w) as (_ & _ & Hf & _).
    rewrite Hf by exact Hne. exact Hp.
Qed.

Lemma write_all_keeps_files table bd p : forall w,
  is_Some (files (fsys w) !! p) ->
  is_Some (files (fsys (snd (write_all table bd w))) !! p).
Proof.
  induction table as [|spec table IH]; intros w Hp; [exact Hp|].
  rewrite write_all_cons.
  destruct (bd !! type_name spec) as [array|]; [|exact Hp].
  pose proof (write_parquet_keeps_files spec array w p Hp) as H1.
  destruct (write_parquet spec array w) as [[[]|e] w1]; cbn [snd] in *.
  - apply IH, H1.
  - exact H1.
Qed.

End RunOutcomeFacts.

(** X8. Whatever happens, what [main] has printed when it ends is the
    first [k] of the 22 expected lines, where [k] is the number of
    specifications it completed: the loop over the first [k]
    specifications returns, having printed exactly these lines; [main]
    returns 0 in the world this leaves when [k] is 22, and otherwise ends
    with what [write_parquet] throws for specification [k] in that world,
    with nothing more printed. *)
Theorem output_is_a_prefix
    {D : Distributions} {W : ParquetWriter} (fs : Filesystem) :
  exists k wk,
    write_all (take k specs) base_data (world_after_generation fs)
    = (Returns tt, wk) /\
    cout wk = unlines (take k expected_lines) /\
    cout (snd (main (initial_world fs))) = unlines (take k expected_lines) /\
    match main (initial_world fs) with
    | (Returns r, w) => k = 22%nat /\ r = 0 /\ w = wk
    | (Throws e, w) =>
        exists spec,
          specs !! k = Some spec /\
          write_parquet spec
            (column_of_type generated_columns (arrow_type spec)) wk
          = (Throws e, w)
    end.
Proof.
  rewrite main_after_generation.
  destruct (write_all_stops specs base_data (world_after_generation fs))
    as (k & wk & Hk & Hc & Hm).
  cbn [cout world_after_generation] in Hc.
  change ("" +:+ unlines (map output_line (take k specs)))
    with (unlines (map output_line (take k specs))) in Hc.
  assert (Hc' : cout wk = unlines (take k expected_lines)).
  { rewrite Hc, <- expected_lines_map.
    change (take k (map output_line specs))
      with (firstn k (map output_line specs)).
    rewrite firstn_map. reflexivity. }
  exists k, wk. split; [exact Hk|]. split; [exact Hc'|].
  destruct (write_all specs base_data _) as [[[]|e] w]; cbn [fst snd].
  - destruct Hm as [-> ->]. auto.
  - destruct Hm as (spec & Hspec & Hthrow & Hcw).
    split; [rewrite Hcw; exact Hc'|].
    exists spec. split; [exact Hspec|].
    assert (Hin : spec ∈ specs) by (eapply list_elem_of_lookup_2; exact Hspec).
    rewrite write_all_cons, (base_data_lookup spec Hin) in Hthrow.
    destruct (write_parquet spec _ wk) as [[[]|e'] w'']; [discriminate|].
    exact Hthrow.
Qed.

(** X9. Whatever happens, [main] leaves every file that is not one of its
    22 output files as it was, removes no file and no directory, and makes
    no directory but the six output directories. *)
Theorem run_touches_only_its_outputs
    {D : Distributions} {W : ParquetWriter} (fs : Filesystem) :
  let fs' := fsys (snd (main (initial_world fs))) in
  (forall p, p ∉ map filename_of specs -> files fs' !! p = files fs !! p) /\
  (forall p, is_Some (files fs !! p) -> is_Some (files fs' !! p)) /\
  directories fs ⊆ directories fs' /\
  directories fs' ⊆ output_directories specs ∪ directories fs /\
  output_directories specs
  = {[ "data/PLAIN"; "data/PLAIN_DICTIONARY"; "data/RLE_DICTIONARY";
       "data/RLE"; "data/DELTA_BINARY_PACKED"; "data/DELTA_LENGTH_BYTE_ARRAY" ]}.
Proof.
  cbn zeta. rewrite main_after_generation.
  destruct (write_all_frame specs base_data (world_after_generation fs))
    as (_ & Hd & Hf).
  pose proof (write_all_directories specs base_data (world_after_generation fs))
    as Hup.
  pose proof (fun p => write_all_keeps_files specs base_data p
                         (world_after_generation fs)) as Hk.
  cbn [fsys world_after_generation] in Hd, Hf, Hup, Hk.
  destruct (write_all specs base_data _) as [[[]|e] w]; cbn [fst snd] in *.
  - repeat split; auto.
  - repeat split; auto.
Qed.

(** X10. The output directories are made directly in [data], which the
    program does not make: when neither [data] nor [data/PLAIN] is a
    directory, [main] ends at the first specification with a filesystem
    error, with nothing printed and the filesystem as it was. *)
Theorem run_needs_data_directory
    {D : Distributions} {W : ParquetWriter} (fs : Filesystem) :
  is_directory fs "data" = false ->
  is_directory fs "data/PLAIN" = false ->
  main (initial_world fs) = (Throws filesystem_error, world_after_generation fs).
Proof.
  intros Hdata Hplain. rewrite main_after_generation.
  change specs with (spec_of PLAIN utf8 :: tl specs).
  rewrite write_all_cons.
  rewrite (base_data_lookup (spec_of PLAIN utf8)) by (unfold specs; left).
  rewrite write_parquet_closed. cbn zeta.
  change (directory_of (spec_of PLAIN utf8)) with "data/PLAIN".
  unfold can_create. cbn [fsys world_after_generation].
  rewrite Hplain. change (parent_path "data/PLAIN") with "data".
  rewrite Hdata, andb_false_r. reflexivity.
Qed.

Lemma run_needs_data_directory_witness :
  is_directory Sample.empty_fs "data" = false /\
  is_directory Sample.empty_fs "data/PLAIN" = false /\
  @main Sample.distributions Sample.lenient_writer (initial_world Sample.empty_fs)
  = (Throws filesystem_error,
     @world_after_generation Sample.distributions Sample.empty_fs).
Proof.
  split; [reflexivity|]. split; [reflexivity|].
  apply (@run_needs_data_directory Sample.distributions Sample.lenient_writer
           Sample.empty_fs); reflexivity.
Defined.

Section RepeatedRunFacts.

Context {W : ParquetWriter}.

(** The loop returns when, for every specification, the output directory
    can be made in [data], no directory has the name of the output file
    and the writer succeeds. *)
Lemma write_all_succeeds table bd : forall w,
  (forall s, s ∈ table ->
     parent_path (directory_of s) = "data" /\
     parent_path (filename_of s) = directory_of s) ->
  (forall s s', s ∈ table -> s' ∈ table -> filename_of s <> directory_of s') ->
  is_directory (fsys w) "data" = true ->
  (forall s, s ∈ table ->
     is_regular_file (fsys w) (directory_of s) = false /\
     is_directory (fsys w) (filename_of s) = false /\
     exists array bytes,
       bd !! type_name s = Some array /\
       WriteTable (table_for s array) 1024 (props_for s) = Written bytes) ->
  exists w', write_all table bd w = (Returns tt, w').
Proof.
  induction table as [|spec table IH]; intros w Hpaths Hne Hdata Hst.
  - exists w. reflexivity.
  - destruct (Hpaths spec ltac:(left)) as [Hp1 Hp2].
    destruct (Hst spec ltac:(left)) as (Hreg & Hnd & array & bytes & Hbd & Hw).
    rewrite write_all_cons, Hbd, write_parquet_closed. cbn zeta.
    assert (Hcc : can_create (fsys w) (directory_of spec) = true).
    { unfold can_create. rewrite Hreg, Hp1, Hdata. apply orb_true_r. }
    assert (Hco : can_open (ensure_directory (fsys w) (directory_of spec))
                    (filename_of spec) = true).
    { unfold can_open. rewrite Hp2, is_directory_ensure_same.
      rewrite is_directory_ensure, Hnd.
      rewrite bool_decide_eq_false_2; [reflexivity|].
      apply Hne; left. }
    rewrite Hcc, Hco, Hw.
    apply IH.
    + intros s Hs. apply Hpaths. right. exact Hs.
    + intros s s' Hs Hs'. apply Hne; right; assumption.
    + cbn [fsys]. rewrite is_directory_with_file, is_directory_ensure, Hdata.
      reflexivity.
    + intros s Hs.
      destruct (Hst s ltac:(right; exact Hs)) as (Hreg' & Hnd' & Hex).
      cbn [fsys]. split; [|split; [|exact Hex]].
      * rewrite is_regular_file_with_file.
        -- rewrite <- Hreg'. apply is_regular_file_lookup.
           rewrite files_ensure. reflexivity.
        -- intros E. apply (Hne spec s); [left|right; exact Hs|].
           symmetry. exact E.
      * rewrite is_directory_with_file, is_directory_ensure, Hnd'.
        rewrite bool_decide_eq_false_2; [reflexivity|].
        apply Hne; [right; exact Hs|left].
Qed.

(** When the loop returns, every output directory is a directory and no
    output file is one. *)
Lemma write_all_returns_directories table bd : forall w w',
  (forall s s', s ∈ table -> s' ∈ table -> filename_of s <> directory_of s') ->
  write_all table bd w = (Returns tt, w') ->
  Forall (fun spec =>
            is_directory (fsys w') (directory_of spec) = true /\
            is_directory (fsys w') (filename_of spec) = false) table.
Proof.
  induction table as [|spec table IH]; intros w w' Hne Hrun; [constructor|].
  rewrite write_all_cons in Hrun.
  destruct (bd !! type_name spec) as [array|]; [|discriminate].
  destruct (write_parquet spec array w) as [[[]|e] w1] eqn:Hstep; [|discriminate].
  rewrite write_parquet_closed in Hstep. cbn zeta in Hstep.
  destruct (can_create _ _); [|discriminate].
  destruct (can_open _ _) eqn:Hco; [|discriminate].
  destruct (WriteTable _ _ _) as [bytes|]; [|discriminate].
  injection Hstep as <-.
  apply andb_prop in Hco as [Hco _]. apply negb_true_iff in Hco.
  destruct (write_all_frame table bd
              {| rng := rng w;
                 fsys := with_file (ensure_directory (fsys w) (directory_of spec))
                           (filename_of spec) bytes;
                 cout := cout w +:+ output_line spec +:+ newline |})
    as (_ & Hgrow & _).
  pose proof (write_all_directories table bd
              {| rng := rng w;
                 fsys := with_file (ensure_directory (fsys w) (directory_of spec))
                           (filename_of spec) bytes;
                 cout := cout w +:+ output_line spec +:+ newline |}) as Hup.
  rewrite Hrun in Hgrow, Hup. cbn [snd fsys with_file directories] in Hgrow, Hup.
  constructor.
  - split.
    + apply is_directory_mono
        with (ensure_directory (fsys w) (directory_of spec));
        [exact Hgrow|apply is_directory_ensure_same].
    + apply not_true_is_false. intros Hd.
      unfold is_directory in Hd. apply bool_decide_eq_true in Hd.
      destruct Hd as [Hd|Hd].
      * unfold is_directory in Hco. rewrite bool_decide_eq_false in Hco. tauto.
      * apply Hup in Hd. rewrite elem_of_union in Hd. destruct Hd as [Hd|Hd].
        -- unfold output_directories in Hd. rewrite elem_of_list_to_set in Hd.
           apply list_elem_of_fmap in Hd as (s' & Hs' & Hin).
           apply (Hne spec s'); [left|right; exact Hin|exact Hs'].
        -- unfold is_directory in Hco. rewrite bool_decide_eq_false in Hco. tauto.
  - apply (IH _ _ (fun s s' Hs Hs' => Hne s s' ltac:(right; exact Hs)
                                        ltac:(right; exact Hs')) Hrun).
Qed.

(** In a filesystem that holds the output of every specification, the
    loop returns and changes nothing in it. *)
Lemma write_all_again table bd : forall w,
  (forall s, s ∈ table ->
     parent_path (filename_of s) = directory_of s /\
     is_directory (fsys w) (directory_of s) = true /\
     is_directory (fsys w) (filename_of s) = false /\
     exists array bytes,
       bd !! type_name s = Some array /\
       WriteTable (table_for s array) 1024 (props_for s) = Written bytes /\
       files (fsys w) !! filename_of s = Some bytes) ->
  write_all table bd w
  = (Returns tt,
     {| rng := rng w; fsys := fsys w;
        cout := cout w +:+ unlines (map output_line table) |}).
Proof.
  induction table as [|spec table IH]; intros w Hst.
  - cbn [write_all for_each ret map unlines]. f_equal.
    destruct w as [r f c]. cbn [rng fsys cout]. f_equal.
    clear. induction c as [|ch s IHs]; [reflexivity|].
    change (String ch s = String ch (s +:+ "")). f_equal. exact IHs.
  - destruct (Hst spec ltac:(left))
      as (Hp & Hdir & Hnd & array & bytes & Hbd & Hw & Hfile).
    rewrite write_all_cons, Hbd, write_parquet_closed. cbn zeta.
    assert (He : ensure_directory (fsys w) (directory_of spec) = fsys w).
    { unfold ensure_directory. rewrite Hdir. reflexivity. }
    unfold can_create, can_open. rewrite He, Hdir, Hnd, Hp, Hdir, Hw.
    cbn [orb negb andb].
    assert (Hsame : with_file (fsys w) (filename_of spec) bytes = fsys w).
    { unfold with_file. rewrite insert_id by exact Hfile.
      destruct (fsys w). reflexivity. }
    rewrite Hsame. rewrite IH by (intros s Hs; apply Hst; right; exact Hs).
    cbn [rng fsys cout map].
    change (unlines (output_line spec :: map output_line table))
      with (output_line spec +:+ newline +:+ unlines (map output_line table)).
    rewrite !string_app_assoc. reflexivity.
Qed.

End RepeatedRunFacts.

Lemma specs_file_is_no_directory (s s' : ColumnSpec) :
  s ∈ specs -> s' ∈ specs -> filename_of s <> directory_of s'.
Proof.
  intros Hs Hs' E. pose proof specs_paths as Hp. rewrite Forall_forall in Hp.
  destruct (Hp s' Hs') as (_ & _ & Hnot). apply Hnot.
  rewrite <- E. apply list_elem_of_fmap. exists s. auto.
Qed.

(** X11. [main] returns 0 from every filesystem in which [data] is a
    directory, no regular file has the name of an output directory, no
    directory has the name of an output file, and for which the writer
    accepts the 22 tables. *)
Theorem run_succeeds
    {D : Distributions} {W : ParquetWriter} (fs : Filesystem) :
  is_directory fs "data" = true ->
  Forall (fun spec =>
    is_regular_file fs (directory_of spec) = false /\
    is_directory fs (filename_of spec) = false /\
    exists bytes,
      WriteTable (table_for spec (column_of_type generated_columns (arrow_type spec)))
                 1024 (props_for spec) = Written bytes) specs ->
  exists w, main (initial_world fs) = (Returns 0, w).
Proof.
  intros Hdata Hall. rewrite Forall_forall in Hall.
  rewrite main_after_generation.
  destruct (write_all_succeeds specs base_data (world_after_generation fs))
    as [w Hw].
  - intros s Hs. pose proof specs_paths as Hp. rewrite Forall_forall in Hp.
    destruct (Hp s Hs) as (H1 & H2 & _). auto.
  - apply specs_file_is_no_directory.
  - exact Hdata.
  - intros s Hs. destruct (Hall s Hs) as (H1 & H2 & bytes & H3).
    split; [exact H1|]. split; [exact H2|].
    exists (column_of_type generated_columns (arrow_type s)), bytes.
    split; [apply base_data_lookup, Hs|exact H3].
  - exists w. rewrite Hw. reflexivity.
Qed.

Lemma run_succeeds_witness :
  exists w,
    @main Sample.distributions Sample.lenient_writer (initial_world Sample.data_fs)
    = (Returns 0, w).
Proof.
  apply (@run_succeeds Sample.distributions Sample.lenient_writer Sample.data_fs).
  - reflexivity.
  - unfold specs.
    repeat (apply Forall_cons_2;
            [split; [reflexivity|split; [reflexivity|eexists; reflexivity]]|]).
    apply Forall_nil_2.
Defined.

(** X12. A run that returned can be repeated: [main] started in the
    filesystem it left returns again, leaves the same filesystem and
    prints the same output. *)
Theorem rerun_changes_nothing
    {D : Distributions} {W : ParquetWriter} (fs : Filesystem) (w1 : World) :
  main (initial_world fs) = (Returns 0, w1) ->
  exists w2,
    main (initial_world (fsys w1)) = (Returns 0, w2) /\
    fsys w2 = fsys w1 /\
    cout w2 = cout w1 /\
    rng w2 = rng w1.
Proof.
  intros H1. rewrite main_after_generation in H1.
  destruct (write_all specs base_data (world_after_generation fs))
    as [[[]|e] w1'] eqn:E1; [|discriminate].
  injection H1 as <-.
  destruct (write_all_returns specs base_data _ _ filenames_distinct E1)
    as [Hc Hfiles].
  pose proof (write_all_returns_directories specs base_data _ _
                specs_file_is_no_directory E1) as Hdirs.
  destruct (write_all_frame specs base_data (world_after_generation fs))
    as (Hr & _). rewrite E1 in Hr. cbn [snd rng world_after_generation] in Hr.
  cbn [cout world_after_generation] in Hc.
  rewrite Forall_forall in Hfiles, Hdirs.
  pose proof specs_paths as Hp. rewrite Forall_forall in Hp.
  rewrite main_after_generation.
  rewrite (write_all_again specs base_data (world_after_generation (fsys w1'))).
  - eexists. split; [reflexivity|]. cbn [fsys cout rng world_after_generation].
    split; [reflexivity|]. split; [symmetry; exact Hc|symmetry; exact Hr].
  - intros s Hs. cbn [fsys world_after_generation].
    destruct (Hp s Hs) as (_ & Hp2 & _).
    destruct (Hdirs s Hs) as [Hd1 Hd2].
    destruct (Hfiles s Hs) as (array & bytes & Hbd & Hw & Hf).
    split; [exact Hp2|]. split; [exact Hd1|]. split; [exact Hd2|].
    exists array, bytes. auto.
Qed.

Lemma rerun_changes_nothing_witness :
  let D := Sample.distributions in
  let W := Sample.lenient_writer in
  let w1 := snd (main (initial_world Sample.data_fs)) in
  exists w2,
    main (initial_world (fsys w1)) = (Returns 0, w2) /\
    fsys w2 = fsys w1 /\
    cout w2 = cout w1.
Proof.
  intros D W w1.
  destruct (@rerun_changes_nothing D W Sample.data_fs w1)
    as (w2 & Hm & Hf & Hc & _).
  - refine (returns_eta (main (initial_world Sample.data_fs)) 0 _).
    run_with_any_columns. reflexivity.
  - exists w2. auto.
Defined.

(** X13. A specification whose type name is no key of the lookup ends the
    loop with [std::out_of_range] when it is reached: the lookup comes
    before the call of [write_parquet], so the world is as the
    specifications before it left it, with no directory made and nothing
    printed for this one, and the specifications after it are not
    processed. *)
Theorem unknown_type_name_aborts
    {W : ParquetWriter} (pre post : list ColumnSpec) (spec : ColumnSpec)
    (bd : gmap string Array) (w w1 : World) :
  bd !! type_name spec = None ->
  write_all pre bd w = (Returns tt, w1) ->
  write_all (pre ++ spec :: post) bd w = (Throws out_of_range, w1).
Proof.
  intros Hnone Hpre. unfold write_all. rewrite for_each_app.
  fold (write_all pre bd w). rewrite Hpre.
  fold (write_all (spec :: post) bd w1).
  rewrite write_all_cons, Hnone. reflexivity.
Qed.

Lemma unknown_type_name_aborts_witness :
  let W := Sample.lenient_writer in
  let spec := {| encoding_name := "PLAIN"; encoding := PLAIN;
                 type_name := "double"; arrow_type := float32 |} in
  let bd : gmap string Array := {[ "float" := FloatArray [] ]} in
  let w := {| rng := Mt19937.seed 42; fsys := Sample.data_fs; cout := "" |} in
  write_all ([] ++ spec :: specs) bd w = (Throws out_of_range, w).
Proof.
  intros W spec bd w.
  apply (@unknown_type_name_aborts W [] specs spec bd w w); reflexivity.
Defined.
